(** * gh-repo-stats: a shallow embedding of [src/gh_stats/gh_stats.py]

    The program resolves a list of repositories, issues three GET requests
    per repository, and renders the records as a console table, a CSV file
    or a JSON file.

    Conventions of the embedding.
    - A Python [str] is a Rocq [string], one [ascii] per code point
      (code points 0..255).
    - The values that flow through the program (decoded JSON and YAML
      documents, dict literals) are the type [pyval]; a [dict] is an
      association list in insertion order, floats are outside the model.
    - Everything outside the source file (environment, network, YAML
      loader, whether a file can be opened, the interpreter's [repr] of
      containers) is a field of the record [World].
    - [main] runs in a state-and-exception monad [M] whose state holds the
      requests issued so far, the invocations of [get_repo_data], the file
      system and the console. *)

From Stdlib Require Import ZArith String Ascii List Bool Lia.
From Stdlib Require Import Decimal DecimalFacts DecimalPos DecimalString DecimalZ.
From stdpp Require Import gmap strings.

Local Open Scope string_scope.
Local Open Scope list_scope.

(** ** Python values *)

Unset Elimination Schemes.
Inductive pyval : Type :=
| VNone
| VBool (b : bool)
| VInt (z : Z)
| VStr (s : string)
| VList (l : list pyval)
| VDict (d : list (string * pyval)).
Set Elimination Schemes.

Inductive exn : Type :=
| KeyError (k : pyval)
| TypeError
| IndexError
| StopIteration
| ValueError (msg : string)
| UnboundLocalError (var : string)
| OSError (path : string)
| RequestException (url : string)
| YAMLError (path : string).

Inductive result (A : Type) : Type :=
| Ok (a : A)
| Raise (e : exn).
Arguments Ok {A} a.
Arguments Raise {A} e.

Definition is_ok {A} (r : result A) : bool :=
  match r with Ok _ => true | Raise _ => false end.

(** [str(int)] *)
Definition dec (z : Z) : string := NilZero.string_of_int (Z.to_int z).

(** [d[k]] on the association list of a dict: first binding of [k]. *)
Fixpoint assoc (k : string) (d : list (string * pyval)) : option pyval :=
  match d with
  | [] => None
  | (k', v) :: d' => if String.eqb k k' then Some v else assoc k d'
  end.

(** The characters of a [str], as the one-character strings Python yields. *)
Fixpoint chars (s : string) : list string :=
  match s with
  | EmptyString => []
  | String c s' => String c EmptyString :: chars s'
  end.

(** Sequence indexing [l[i]], negative indices counted from the end. *)
Definition py_index {A} (l : list A) (i : Z) : result A :=
  let n := Z.of_nat (List.length l) in
  let j := (if i <? 0 then i + n else i)%Z in
  if (j <? 0)%Z then Raise IndexError
  else match nth_error l (Z.to_nat j) with
       | Some x => Ok x
       | None => Raise IndexError
       end.

(** [obj[key]] *)
Definition py_getitem (obj key : pyval) : result pyval :=
  match obj, key with
  | VDict d, VStr k =>
      match assoc k d with Some v => Ok v | None => Raise (KeyError key) end
  | VDict _, (VList _ | VDict _) => Raise TypeError
  | VDict _, _ => Raise (KeyError key)
  | VList l, VInt i => py_index l i
  | VList l, VBool b => py_index l (if b then 1 else 0)%Z
  | VStr s, VInt i =>
      match py_index (chars s) i with Ok c => Ok (VStr c) | Raise e => Raise e end
  | VStr s, VBool b =>
      match py_index (chars s) (if b then 1 else 0)%Z with
      | Ok c => Ok (VStr c) | Raise e => Raise e end
  | _, _ => Raise TypeError
  end.

(** The items a [for] loop (or a comprehension) visits. *)
Definition py_iter (v : pyval) : result (list pyval) :=
  match v with
  | VList l => Ok l
  | VDict d => Ok (map (fun kv => VStr (fst kv)) d)
  | VStr s => Ok (map VStr (chars s))
  | _ => Raise TypeError
  end.

(** [next(iter(v))] *)
Definition py_first (v : pyval) : result pyval :=
  match py_iter v with
  | Ok (x :: _) => Ok x
  | Ok [] => Raise StopIteration
  | Raise e => Raise e
  end.

(** Truth value of a click option: [None] and the empty string are false. *)
Definition truthy (o : option string) : bool :=
  match o with
  | Some (String _ _) => true
  | _ => false
  end.

(** ** The world around the program *)

Record request : Type := Request {
  req_url : string;
  req_headers : list (string * string)
}.

Record World : Type := {
  (** [os.getenv] *)
  getenv : string -> option string;
  (** [requests.get(url, headers=h).json()], given the requests already
      issued in this run *)
  respond : list request -> request -> result pyval;
  (** [yaml.safe_load] of the file at a path *)
  safe_load : string -> result pyval;
  (** whether [open(path, "w")] succeeds *)
  writable : string -> bool;
  (** [repr] of a list or a dict *)
  repr_container : pyval -> string
}.

(** [str(v)], also what an f-string substitutes *)
Definition py_str (w : World) (v : pyval) : string :=
  match v with
  | VNone => "None"
  | VBool true => "True"
  | VBool false => "False"
  | VInt z => dec z
  | VStr s => s
  | _ => repr_container w v
  end.

(** ** State and exceptions *)

Inductive output : Type :=
| OutLine (line : string)
| OutTable (title : string) (columns : list string) (rows : list (list string)).

Record state : Type := State {
  requests : list request;              (* GET requests issued, oldest first *)
  calls : list (pyval * pyval);         (* invocations of get_repo_data *)
  fs : gmap string string;              (* files by the path given to open *)
  console : list output                 (* what was printed, oldest first *)
}.

Definition M (A : Type) : Type := state -> result A * state.

Definition ret {A} (a : A) : M A := fun st => (Ok a, st).
Definition raise {A} (e : exn) : M A := fun st => (Raise e, st).
Definition bind {A B} (m : M A) (k : A -> M B) : M B :=
  fun st => match m st with
            | (Ok a, st') => k a st'
            | (Raise e, st') => (Raise e, st')
            end.
Definition lift {A} (r : result A) : M A := fun st => (r, st).

Notation "x <- m ;; k" := (bind m (fun x => k))
  (at level 100, m at next level, right associativity).
Notation "m ;;; k" := (bind m (fun _ => k))
  (at level 100, right associativity).

(** [for x in xs: acc.append(body x)] *)
Fixpoint for_append {A B} (body : A -> M B) (xs : list A) : M (list B) :=
  match xs with
  | [] => ret []
  | x :: xs' => y <- body x ;; ys <- for_append body xs' ;; ret (y :: ys)
  end.

Definition http_get_json (w : World) (url : string)
    (headers : list (string * string)) : M pyval :=
  fun st =>
    let rq := Request url headers in
    (respond w (requests st) rq,
     State (requests st ++ [rq]) (calls st) (fs st) (console st)).

Definition log_call (owner repo : pyval) : M unit :=
  fun st => (Ok tt, State (requests st) (calls st ++ [(owner, repo)]) (fs st) (console st)).

Definition console_print (o : output) : M unit :=
  fun st => (Ok tt, State (requests st) (calls st) (fs st) (console st ++ [o])).

(** [open(path, "w")]: the file is created or truncated. *)
Definition open_w (w : World) (path : string) : M unit :=
  fun st =>
    if writable w path
    then (Ok tt, State (requests st) (calls st) (<[path := ""]> (fs st)) (console st))
    else (Raise (OSError path), st).

(** [file.write(text)] on a file opened at [path]; the text is in the file
    once the [with] block is left, normally or by an exception. *)
Definition file_write (path text : string) : M unit :=
  fun st =>
    (Ok tt, State (requests st) (calls st)
              (<[path := default "" (fs st !! path) +:+ text]> (fs st)) (console st)).

(** ** get_repo_data (lines 12-36) *)

Definition get_repo_data (w : World) (headers : list (string * string))
    (owner repo : pyval) : M pyval :=
  log_call owner repo ;;;
  let base := "https://api.github.com/repos/" +:+ py_str w owner +:+ "/" +:+ py_str w repo in
  resp_data <- http_get_json w base headers ;;
  views <- http_get_json w (base +:+ "/traffic/views") headers ;;
  clones <- http_get_json w (base +:+ "/traffic/clones") headers ;;
  forks <- lift (py_getitem resp_data (VStr "forks_count")) ;;
  stars <- lift (py_getitem resp_data (VStr "stargazers_count")) ;;
  watchers <- lift (py_getitem resp_data (VStr "watchers_count")) ;;
  clones_total <- lift (py_getitem clones (VStr "count")) ;;
  clones_unique <- lift (py_getitem clones (VStr "uniques")) ;;
  views_total <- lift (py_getitem views (VStr "count")) ;;
  views_unique <- lift (py_getitem views (VStr "uniques")) ;;
  ret (VDict [("Repo", VStr (py_str w owner +:+ "/" +:+ py_str w repo));
              ("Forks", forks);
              ("Stars", stars);
              ("Watchers", watchers);
              ("Clones Total", clones_total);
              ("Clones Unique", clones_unique);
              ("Views Total", views_total);
              ("Views Unique", views_unique)]).

(** ** Token resolution (lines 55-61) *)

(** What an f-string substitutes for an optional string. *)
Definition fstr_opt (o : option string) : string :=
  match o with
  | Some s => s
  | None => "None"
  end.

(** [os.getenv] does not raise, so the [except] branch is dead and
    [HEADERS] is always bound. *)
Definition resolve_headers (w : World) (auth_token : option string)
    : list (string * string) :=
  if truthy auth_token
  then [("Authorization", "token " +:+ fstr_opt auth_token)]
  else [("Authorization", "token " +:+ fstr_opt (getenv w "GH_TOKEN"))].

(** ** str.strip *)

(** Whitespace in the sense of [str.isspace], among code points 0..255. *)
Definition is_whitespace (c : ascii) : bool :=
  let n := nat_of_ascii c in
  (((9 <=? n) && (n <=? 13)) || ((28 <=? n) && (n <=? 32))
   || (n =? 133) || (n =? 160))%nat.

Definition is_slash (c : ascii) : bool := Ascii.eqb c "/".

Fixpoint lstrip (p : ascii -> bool) (s : string) : string :=
  match s with
  | EmptyString => EmptyString
  | String c s' => if p c then lstrip p s' else s
  end.

Fixpoint rstrip (p : ascii -> bool) (s : string) : string :=
  match s with
  | EmptyString => EmptyString
  | String c s' =>
      match rstrip p s' with
      | EmptyString => if p c then EmptyString else String c EmptyString
      | r => String c r
      end
  end.

Definition strip (p : ascii -> bool) (s : string) : string :=
  rstrip p (lstrip p s).

(** [name.strip().strip('/')] (lines 67 and 72) *)
Definition clean_owner (name : string) : string :=
  strip is_slash (strip is_whitespace name).

(** ** parse_repos_list_from_yaml (lines 39-42) *)

Definition parse_repos_list_from_yaml (w : World) (file : string) : M pyval :=
  lift (safe_load w file).

(** ** Repository source (lines 64-75) *)

(** The result is [None] when no branch binds [repos_dict]. *)
Definition resolve_repos (w : World) (headers : list (string * string))
    (repos org user : option string) : M (option pyval) :=
  if truthy repos then
    repos_dict <- parse_repos_list_from_yaml w (fstr_opt repos) ;;
    ret (Some repos_dict)
  else if truthy org then
    let owner := clean_owner (fstr_opt org) in
    org_repos <- http_get_json w
      ("https://api.github.com/orgs/" +:+ owner +:+ "/repos") headers ;;
    items <- lift (py_iter org_repos) ;;
    repo_names <- for_append (fun repo => lift (py_getitem repo (VStr "name"))) items ;;
    ret (Some (VDict [("Owners", VList [VDict [(owner, VList repo_names)]])]))
  else if truthy user then
    let owner := clean_owner (fstr_opt user) in
    org_repos <- http_get_json w
      ("https://api.github.com/users/" +:+ owner +:+ "/repos") headers ;;
    items <- lift (py_iter org_repos) ;;
    repo_names <- for_append (fun repo => lift (py_getitem repo (VStr "name"))) items ;;
    ret (Some (VDict [("Owners", VList [VDict [(owner, VList repo_names)]])]))
  else ret None.

(** ** Fetch loop (lines 80-84) *)

(** The body of the outer loop: the records appended for one entry. *)
Definition fetch_entry (w : World) (headers : list (string * string))
    (repo_owner : pyval) : M (list pyval) :=
  key <- lift (py_first repo_owner) ;;
  repo_list <- lift (py_getitem repo_owner key) ;;
  repos <- lift (py_iter repo_list) ;;
  for_append (fun repo => get_repo_data w headers key repo) repos.

Definition fetch_loop (w : World) (headers : list (string * string))
    (repos_dict : option pyval) : M (list pyval) :=
  match repos_dict with
  | None => raise (UnboundLocalError "repos_dict")
  | Some rd =>
      owners_v <- lift (py_getitem rd (VStr "Owners")) ;;
      owners <- lift (py_iter owners_v) ;;
      chunks <- for_append (fetch_entry w headers) owners ;;
      ret (concat chunks)
  end.

(** ** pathlib (POSIX flavour) *)

Definition dquote : ascii := "034"%char.
Definition backslash : ascii := "092"%char.
Definition LF : ascii := "010"%char.
Definition CR : ascii := "013"%char.

Fixpoint join (sep : string) (l : list string) : string :=
  match l with
  | [] => ""
  | [x] => x
  | x :: l' => x +:+ sep +:+ join sep l'
  end.

(** [s.split('/')] *)
Fixpoint split_slash (s : string) : list string :=
  match s with
  | EmptyString => [""]
  | String c s' =>
      if is_slash c then "" :: split_slash s'
      else match split_slash s' with
           | x :: xs => String c x :: xs
           | [] => [String c ""]
           end
  end.

(** The components a path keeps: empty ones and ["."] are dropped. *)
Definition path_parts (s : string) : list string :=
  filter (fun x => negb (String.eqb x "") && negb (String.eqb x ".")) (split_slash s).

(** One or at least three leading slashes are the root ["/"], exactly two
    are the root ["//"]. *)
Definition path_root (s : string) : string :=
  match s with
  | String "/" (String "/" (String "/" _)) => "/"
  | String "/" (String "/" _) => "//"
  | String "/" _ => "/"
  | _ => ""
  end.

(** [Path(s).name] *)
Definition Path_name (s : string) : string := List.last (path_parts s) "".

(** [str(Path(s))], the path [open] receives *)
Definition Path_str (s : string) : string :=
  match path_root s +:+ join "/" (path_parts s) with
  | EmptyString => "."
  | p => p
  end.

(** [name[i:]] for [i] the index of the last dot of [name] *)
Fixpoint from_last_dot (name : string) : option string :=
  match name with
  | EmptyString => None
  | String c name' =>
      match from_last_dot name' with
      | Some t => Some t
      | None => if Ascii.eqb c "." then Some name else None
      end
  end.

(** [Path(s).suffix]: the last dot of the name and what follows, unless
    that dot is the first or the last character of the name. *)
Definition Path_suffix (s : string) : string :=
  match Path_name s with
  | EmptyString => ""
  | String _ rest =>
      match from_last_dot rest with
      | Some (String dot (String c ext)) => String dot (String c ext)
      | _ => ""
      end
  end.

(** ** csv.DictWriter (excel dialect) *)

Definition fieldnames : list string :=
  ["Repo"; "Forks"; "Stars"; "Watchers";
   "Clones Total"; "Clones Unique"; "Views Total"; "Views Unique"].

Fixpoint string_exists (p : ascii -> bool) (s : string) : bool :=
  match s with
  | EmptyString => false
  | String c s' => p c || string_exists p s'
  end.

(** Characters that force a field into quotes: delimiter, quote character,
    and the characters of the line terminator. *)
Definition csv_special (c : ascii) : bool :=
  Ascii.eqb c "," || Ascii.eqb c dquote || Ascii.eqb c CR || Ascii.eqb c LF.

Fixpoint double_quotes (s : string) : string :=
  match s with
  | EmptyString => EmptyString
  | String c s' =>
      if Ascii.eqb c dquote then String dquote (String dquote (double_quotes s'))
      else String c (double_quotes s')
  end.

Definition csv_field (s : string) : string :=
  if string_exists csv_special s
  then String dquote (double_quotes s) +:+ String dquote ""
  else s.

(** The text of a cell: [None] is empty, a [str] is itself, anything else
    goes through [str()]. *)
Definition csv_text (w : World) (v : pyval) : string :=
  match v with
  | VNone => ""
  | VStr s => s
  | _ => py_str w v
  end.

Definition CRLF : string := String CR (String LF "").

(** [writer.writerow]: a row made of one empty field is written as a pair
    of quotes. *)
Definition csv_line (w : World) (row : list pyval) : string :=
  match join "," (map (fun v => csv_field (csv_text w v)) row), row with
  | EmptyString, _ :: _ => String dquote (String dquote CRLF)
  | body, _ => body +:+ CRLF
  end.

(** [DictWriter._dict_to_list] with [extrasaction='raise'], [restval=''] *)
Definition dict_to_list (rowdict : list (string * pyval)) : result (list pyval) :=
  if forallb (fun kv => existsb (String.eqb (fst kv)) fieldnames) rowdict
  then Ok (map (fun k => match assoc k rowdict with
                         | Some v => v
                         | None => VStr ""
                         end) fieldnames)
  else Raise (ValueError "dict contains fields not in fieldnames").

Definition writerow (w : World) (path : string) (rowdict : list (string * pyval))
    : M unit :=
  row <- lift (dict_to_list rowdict) ;;
  file_write path (csv_line w row).

Definition writeheader (w : World) (path : string) : M unit :=
  writerow w path (map (fun k => (k, VStr k)) fieldnames).

(** The row dict of lines 111-120. *)
Definition csv_rowdict (data : pyval) : M (list (string * pyval)) :=
  repo <- lift (py_getitem data (VStr "Repo")) ;;
  forks <- lift (py_getitem data (VStr "Forks")) ;;
  stars <- lift (py_getitem data (VStr "Stars")) ;;
  watchers <- lift (py_getitem data (VStr "Watchers")) ;;
  clones_total <- lift (py_getitem data (VStr "Clones Total")) ;;
  clones_unique <- lift (py_getitem data (VStr "Clones Unique")) ;;
  views_total <- lift (py_getitem data (VStr "Views Total")) ;;
  views_unique <- lift (py_getitem data (VStr "Views Unique")) ;;
  ret [("Repo", repo); ("Forks", forks); ("Stars", stars); ("Watchers", watchers);
       ("Clones Total", clones_total); ("Clones Unique", clones_unique);
       ("Views Total", views_total); ("Views Unique", views_unique)].

(** [for x in xs: body x] *)
Fixpoint for_each {A} (body : A -> M unit) (xs : list A) : M unit :=
  match xs with
  | [] => ret tt
  | x :: xs' => body x ;;; for_each body xs'
  end.

(** ** json.dumps(obj, indent=4) *)

Definition hex_digit (n : nat) : ascii :=
  nth n ["0"; "1"; "2"; "3"; "4"; "5"; "6"; "7"; "8"; "9";
         "a"; "b"; "c"; "d"; "e"; "f"]%char "0"%char.

(** With [ensure_ascii] every character outside the printable ASCII range is
    written as a [\uXXXX] escape. *)
Definition json_escape (c : ascii) : string :=
  if Ascii.eqb c dquote then String backslash (String dquote "")
  else if Ascii.eqb c backslash then String backslash (String backslash "")
  else if Ascii.eqb c LF then String backslash "n"
  else if Ascii.eqb c CR then String backslash "r"
  else if Ascii.eqb c "009" then String backslash "t"
  else if Ascii.eqb c "008" then String backslash "b"
  else if Ascii.eqb c "012" then String backslash "f"
  else
    let n := nat_of_ascii c in
    if ((n <? 32) || (126 <? n))%nat
    then String backslash
           (String "u" (String "0" (String "0"
              (String (hex_digit (n / 16)) (String (hex_digit (n mod 16)) "")))))
    else String c "".

Fixpoint escape_all (s : string) : string :=
  match s with
  | EmptyString => EmptyString
  | String c s' => json_escape c +:+ escape_all s'
  end.

Definition encode_str (s : string) : string :=
  String dquote (escape_all s +:+ String dquote "").

Fixpoint spaces (n : nat) : string :=
  match n with
  | O => EmptyString
  | S n' => String " " (spaces n')
  end.

(** A newline and the indentation of a nesting level. *)
Definition newline_indent (level : nat) : string :=
  String LF (spaces (4 * level)).

Fixpoint dumps (level : nat) (v : pyval) {struct v} : string :=
  match v with
  | VNone => "null"
  | VBool true => "true"
  | VBool false => "false"
  | VInt z => dec z
  | VStr s => encode_str s
  | VList [] => "[]"
  | VList l =>
      "[" +:+ newline_indent (S level)
      +:+ join ("," +:+ newline_indent (S level)) (map (dumps (S level)) l)
      +:+ newline_indent level +:+ "]"
  | VDict [] => "{}"
  | VDict d =>
      "{" +:+ newline_indent (S level)
      +:+ join ("," +:+ newline_indent (S level))
            (map (fun kv => encode_str (fst kv) +:+ ": " +:+ dumps (S level) (snd kv)) d)
      +:+ newline_indent level +:+ "}"
  end.

Definition json_dumps (v : pyval) : string := dumps 0 v.

(** ** json.loads

    [None] stands for a [JSONDecodeError], and also for a document that
    holds a float or an escape above code point 255, which [pyval] does not
    represent. *)

Definition is_json_ws (c : ascii) : bool :=
  Ascii.eqb c " " || Ascii.eqb c "009" || Ascii.eqb c LF || Ascii.eqb c CR.

Fixpoint skip_ws (s : string) : string :=
  match s with
  | EmptyString => EmptyString
  | String c s' => if is_json_ws c then skip_ws s' else s
  end.

Definition hex_val (c : ascii) : option nat :=
  let n := nat_of_ascii c in
  if ((48 <=? n) && (n <=? 57))%nat then Some (n - 48)
  else if ((97 <=? n) && (n <=? 102))%nat then Some (n - 87)
  else if ((65 <=? n) && (n <=? 70))%nat then Some (n - 55)
  else None.

Definition unescape (c : ascii) : option ascii :=
  if Ascii.eqb c dquote then Some dquote
  else if Ascii.eqb c backslash then Some backslash
  else if Ascii.eqb c "/" then Some "/"%char
  else if Ascii.eqb c "b" then Some "008"%char
  else if Ascii.eqb c "f" then Some "012"%char
  else if Ascii.eqb c "n" then Some LF
  else if Ascii.eqb c "r" then Some CR
  else if Ascii.eqb c "t" then Some "009"%char
  else None.

Definition cons_char (c : ascii) (r : option (string * string))
    : option (string * string) :=
  match r with
  | Some (s, rest) => Some (String c s, rest)
  | None => None
  end.

(** The string whose opening quote has just been read (strict mode). *)
Fixpoint scanstring (s : string) : option (string * string) :=
  match s with
  | EmptyString => None
  | String c r =>
      if Ascii.eqb c dquote then Some ("", r)
      else if Ascii.eqb c backslash then
        match r with
        | String e r' =>
            if Ascii.eqb e "u" then
              match r' with
              | String h1 (String h2 (String h3 (String h4 r''))) =>
                  match hex_val h1, hex_val h2, hex_val h3, hex_val h4 with
                  | Some a, Some b, Some x, Some y =>
                      if ((a =? 0) && (b =? 0))%nat
                      then cons_char (ascii_of_nat (16 * x + y)) (scanstring r'')
                      else None
                  | _, _, _, _ => None
                  end
              | _ => None
              end
            else
              match unescape e with
              | Some c' => cons_char c' (scanstring r')
              | None => None
              end
        | EmptyString => None
        end
      else if (nat_of_ascii c <? 32)%nat then None
      else cons_char c (scanstring r)
  end.

Definition is_digit (c : ascii) : bool :=
  let n := nat_of_ascii c in ((48 <=? n) && (n <=? 57))%nat.

(** The longest prefix of digits, and what follows it. *)
Fixpoint span_digits (s : string) : string * string :=
  match s with
  | EmptyString => ("", "")
  | String c s' =>
      if is_digit c
      then let '(ds, rest) := span_digits s' in (String c ds, rest)
      else ("", s)
  end.

(** Whether the text after an integer continues a number: a digit after a
    leading zero is an error, a fraction or an exponent makes a float. *)
Definition continues_number (rest : string) : bool :=
  match rest with
  | String c _ => is_digit c || Ascii.eqb c "." || Ascii.eqb c "e" || Ascii.eqb c "E"
  | EmptyString => false
  end.

Definition int_of_digits (negative : bool) (ds : string) : option Z :=
  match NilEmpty.uint_of_string ds with
  | Some u => Some (Z.of_int (if negative then Neg u else Pos u))
  | None => None
  end.

(** An optional minus sign, then either a single zero or a digit from 1 to
    9 followed by digits; not followed by a fraction or an exponent. *)
Definition scan_digits (s : string) : string * string :=
  match s with
  | String c r => if Ascii.eqb c "0" then ("0", r) else span_digits s
  | EmptyString => ("", "")
  end.

Definition scan_int (s : string) : option (Z * string) :=
  let '(negative, s1) :=
    match s with
    | String c r => if Ascii.eqb c "-" then (true, r) else (false, s)
    | EmptyString => (false, s)
    end in
  let '(ds, rest) := scan_digits s1 in
  match ds with
  | EmptyString => None
  | _ => if continues_number rest then None
         else match int_of_digits negative ds with
              | Some z => Some (z, rest)
              | None => None
              end
  end.

(** [dict[k] = v]: a key already present keeps its position. *)
Fixpoint dict_set (k : string) (v : pyval) (d : list (string * pyval))
    : list (string * pyval) :=
  match d with
  | [] => [(k, v)]
  | (k', v') :: d' =>
      if String.eqb k k' then (k, v) :: d' else (k', v') :: dict_set k v d'
  end.

(** [dict(pairs)] *)
Definition dict_of_pairs (pairs : list (string * pyval)) : list (string * pyval) :=
  fold_left (fun d kv => dict_set (fst kv) (snd kv) d) pairs [].

Definition starts_with (p s : string) : option string :=
  if String.prefix p s
  then Some (String.substring (String.length p) (String.length s - String.length p) s)
  else None.

Fixpoint scan_once (fuel : nat) (s : string) {struct fuel}
    : option (pyval * string) :=
  match fuel with
  | O => None
  | S f =>
      match s with
      | EmptyString => None
      | String c r =>
          if Ascii.eqb c dquote then
            match scanstring r with
            | Some (x, rest) => Some (VStr x, rest)
            | None => None
            end
          else if Ascii.eqb c "{" then
            match skip_ws r with
            | String q rest =>
                if Ascii.eqb q "}" then Some (VDict [], rest)
                else if Ascii.eqb q dquote then
                  match object_items f rest with
                  | Some (pairs, rest') => Some (VDict (dict_of_pairs pairs), rest')
                  | None => None
                  end
                else None
            | EmptyString => None
            end
          else if Ascii.eqb c "[" then
            match skip_ws r with
            | String q rest =>
                if Ascii.eqb q "]" then Some (VList [], rest)
                else
                  match array_items f (String q rest) with
                  | Some (items, rest') => Some (VList items, rest')
                  | None => None
                  end
            | EmptyString => None
            end
          else
            match starts_with "null" s, starts_with "true" s, starts_with "false" s with
            | Some rest, _, _ => Some (VNone, rest)
            | _, Some rest, _ => Some (VBool true, rest)
            | _, _, Some rest => Some (VBool false, rest)
            | None, None, None =>
                match scan_int s with
                | Some (z, rest) => Some (VInt z, rest)
                | None => None
                end
            end
      end
  end

(** The members of an object, from just after the opening quote of a key. *)
with object_items (fuel : nat) (s : string) {struct fuel}
    : option (list (string * pyval) * string) :=
  match fuel with
  | O => None
  | S f =>
      match scanstring s with
      | Some (key, r) =>
          match skip_ws r with
          | String colon r1 =>
              if Ascii.eqb colon ":" then
                match scan_once f (skip_ws r1) with
                | Some (v, r2) =>
                    match skip_ws r2 with
                    | String d r3 =>
                        if Ascii.eqb d "}" then Some ([(key, v)], r3)
                        else if Ascii.eqb d "," then
                          match skip_ws r3 with
                          | String q r4 =>
                              if Ascii.eqb q dquote then
                                match object_items f r4 with
                                | Some (pairs, rest) => Some ((key, v) :: pairs, rest)
                                | None => None
                                end
                              else None
                          | EmptyString => None
                          end
                        else None
                    | EmptyString => None
                    end
                | None => None
                end
              else None
          | EmptyString => None
          end
      | None => None
      end
  end

(** The elements of an array, from the first character of an element. *)
with array_items (fuel : nat) (s : string) {struct fuel}
    : option (list pyval * string) :=
  match fuel with
  | O => None
  | S f =>
      match scan_once f s with
      | Some (v, r) =>
          match skip_ws r with
          | String d r1 =>
              if Ascii.eqb d "]" then Some ([v], r1)
              else if Ascii.eqb d "," then
                match array_items f (skip_ws r1) with
                | Some (items, rest) => Some (v :: items, rest)
                | None => None
                end
              else None
          | EmptyString => None
          end
      | None => None
      end
  end.

(** [json.loads(text)]: one value, surrounded by optional whitespace. *)
Definition json_loads (text : string) : option pyval :=
  match scan_once (S (String.length text)) (skip_ws text) with
  | Some (v, rest) =>
      match skip_ws rest with
      | EmptyString => Some v
      | _ => None
      end
  | None => None
  end.

(** ** Output sink (lines 88-158) *)

Definition console_line (line : string) : M unit := console_print (OutLine line).

(** One row of the console table (lines 146-155). *)
Definition table_row (w : World) (data : pyval) : M (list string) :=
  repo <- lift (py_getitem data (VStr "Repo")) ;;
  forks <- lift (py_getitem data (VStr "Forks")) ;;
  stars <- lift (py_getitem data (VStr "Stars")) ;;
  watchers <- lift (py_getitem data (VStr "Watchers")) ;;
  clones_total <- lift (py_getitem data (VStr "Clones Total")) ;;
  clones_unique <- lift (py_getitem data (VStr "Clones Unique")) ;;
  views_total <- lift (py_getitem data (VStr "Views Total")) ;;
  views_unique <- lift (py_getitem data (VStr "Views Unique")) ;;
  ret [py_str w repo; py_str w forks; py_str w stars; py_str w watchers;
       py_str w clones_total; py_str w clones_unique;
       py_str w views_total; py_str w views_unique].

(** The CSV branch (lines 92-123); the name of the file it opens is the
    literal of line 93. *)
Definition write_csv (w : World) (final_data : list pyval) : M unit :=
  console_line "Creating CSV" ;;;
  open_w w "data.csv" ;;;
  writeheader w "data.csv" ;;;
  for_each (fun data => rowdict <- csv_rowdict data ;; writerow w "data.csv" rowdict)
           final_data ;;;
  console_line "CSV file created.".

(** The JSON branch (lines 126-129). *)
Definition write_json (w : World) (output_file : string) (final_data : list pyval)
    : M unit :=
  console_line "Creating JSON" ;;;
  open_w w (Path_str output_file) ;;;
  file_write (Path_str output_file) (json_dumps (VDict [("Data", VList final_data)])).

(** The console branch (lines 135-158). *)
Definition write_table (w : World) (final_data : list pyval) : M unit :=
  rows <- for_append (table_row w) final_data ;;
  console_print (OutTable "GitHub Stats" fieldnames rows).

Definition output_sink (w : World) (output_file : option string)
    (final_data : list pyval) : M unit :=
  if truthy output_file then
    let path := fstr_opt output_file in
    if String.eqb (Path_suffix path) ".csv" then write_csv w final_data
    else if String.eqb (Path_suffix path) ".json" then write_json w path final_data
    else raise (ValueError "Output file must be CSV or JSON")
  else write_table w final_data.

(** ** main (lines 51-158) *)

Definition main (w : World) (repos org user output_file auth_token : option string)
    : M unit :=
  let HEADERS := resolve_headers w auth_token in
  repos_dict <- resolve_repos w HEADERS repos org user ;;
  final_data <- fetch_loop w HEADERS repos_dict ;;
  output_sink w output_file final_data.

(** ** A sample world

    The service of the example in the specification: one organisation
    [acme] with the repository [widgets]. *)

Definition ends_with (suffix s : string) : bool :=
  let n := String.length s in
  let m := String.length suffix in
  (m <=? n)%nat && String.eqb (String.substring (n - m) m s) suffix.

Definition acme_respond (_ : list request) (rq : request) : result pyval :=
  let url := req_url rq in
  if ends_with "/traffic/views" url
  then Ok (VDict [("count", VInt 50); ("uniques", VInt 20)])
  else if ends_with "/traffic/clones" url
  then Ok (VDict [("count", VInt 5); ("uniques", VInt 4)])
  else if ends_with "/repos" url
  then Ok (VList [VDict [("name", VStr "widgets")]])
  else Ok (VDict [("forks_count", VInt 3); ("stargazers_count", VInt 10);
                  ("watchers_count", VInt 10)]).

Definition acme_config : pyval :=
  VDict [("Owners", VList [VDict [("acme", VList [VStr "widgets"; VStr "gadgets"])]])].

Definition acme_world : World :=
  {| getenv := fun _ => None;
     respond := acme_respond;
     safe_load := fun _ => Ok acme_config;
     writable := fun _ => true;
     repr_container := fun _ => "" |}.

Definition init_state : state := State [] [] ∅ [].

(** ** Vocabulary of the specification *)

(** A resolved RepoSource: an ordered list of single-key mappings, each from
    an owner to an ordered list of repository names. *)
Definition RepoSource : Type := list (string * list string).

(** The value the fetch loop receives for a RepoSource. *)
Definition source_value (src : RepoSource) : pyval :=
  VDict [("Owners",
          VList (map (fun e => VDict [(fst e, VList (map VStr (snd e)))]) src))].

(** The (owner, repo) pairs of a RepoSource, in order. *)
Definition source_pairs (src : RepoSource) : list (string * string) :=
  flat_map (fun e => map (fun r => (fst e, r)) (snd e)) src.

Definition pair_value (p : string * string) : pyval * pyval :=
  (VStr (fst p), VStr (snd p)).

(** A RepoStatsRecord: the identifier and seven integer counters. *)
Record RepoStatsRecord : Type := {
  rec_repo : string;
  rec_forks : Z;
  rec_stars : Z;
  rec_watchers : Z;
  rec_clones_total : Z;
  rec_clones_unique : Z;
  rec_views_total : Z;
  rec_views_unique : Z
}.

(** The dict that holds a record in memory. *)
Definition record_value (r : RepoStatsRecord) : pyval :=
  VDict [("Repo", VStr (rec_repo r));
         ("Forks", VInt (rec_forks r));
         ("Stars", VInt (rec_stars r));
         ("Watchers", VInt (rec_watchers r));
         ("Clones Total", VInt (rec_clones_total r));
         ("Clones Unique", VInt (rec_clones_unique r));
         ("Views Total", VInt (rec_views_total r));
         ("Views Unique", VInt (rec_views_unique r))].

Definition csv_header : string :=
  "Repo,Forks,Stars,Watchers,Clones Total,Clones Unique,Views Total,Views Unique".

(** The CSV row of a record: the identifier as a CSV field, the counters in
    decimal. *)
Definition csv_row_text (r : RepoStatsRecord) : string :=
  csv_field (rec_repo r) +:+ "," +:+ dec (rec_forks r) +:+ "," +:+ dec (rec_stars r)
  +:+ "," +:+ dec (rec_watchers r) +:+ "," +:+ dec (rec_clones_total r)
  +:+ "," +:+ dec (rec_clones_unique r) +:+ "," +:+ dec (rec_views_total r)
  +:+ "," +:+ dec (rec_views_unique r).

(** A text made of lines, each closed by the line terminator. *)
Fixpoint crlf_lines (lines : list string) : string :=
  match lines with
  | [] => ""
  | l :: lines' => l +:+ CRLF +:+ crlf_lines lines'
  end.

Fixpoint count_char (c : ascii) (s : string) : nat :=
  match s with
  | EmptyString => 0
  | String c' s' => (if Ascii.eqb c c' then 1 else 0) + count_char c s'
  end.

Fixpoint distinct (l : list string) : bool :=
  match l with
  | [] => true
  | x :: l' => negb (existsb (String.eqb x) l') && distinct l'
  end.

(** The invariant of a Python value: the keys of every dict are distinct. *)
Fixpoint well_formed (v : pyval) : bool :=
  match v with
  | VList l => forallb well_formed l
  | VDict d =>
      distinct (map fst d)
      && forallb (fun kv => well_formed (snd kv)) d
  | _ => true
  end.

(** The owner as the specification describes it: every leading and trailing
    character that is whitespace or a slash removed. *)
Definition strip_whitespace_and_slashes (name : string) : string :=
  strip (fun c => is_whitespace c || is_slash c) name.

Fixpoint string_forall (p : ascii -> bool) (s : string) : bool :=
  match s with
  | EmptyString => true
  | String c s' => p c && string_forall p s'
  end.

Definition first_char_is (p : ascii -> bool) (s : string) : bool :=
  match s with
  | EmptyString => false
  | String c _ => p c
  end.

Fixpoint last_char_is (p : ascii -> bool) (s : string) : bool :=
  match s with
  | EmptyString => false
  | String c EmptyString => p c
  | String _ s' => last_char_is p s'
  end.

(** [r] is [s] without its leading and trailing characters in [p]. *)
Definition stripped_of (p : ascii -> bool) (s r : string) : Prop :=
  exists a b, s = a +:+ r +:+ b
    /\ string_forall p a = true /\ string_forall p b = true
    /\ first_char_is p r = false /\ last_char_is p r = false.

(** An entry of the Owners list cut down to its first key. *)
Definition first_key_only (entry : pyval) : pyval :=
  match entry with
  | VDict (kv :: _) => VDict [kv]
  | _ => entry
  end.

(** The first two stages of [main]: resolve the source, fetch the records. *)
Definition gather (w : World) (repos org user auth_token : option string)
    : M (list pyval) :=
  let HEADERS := resolve_headers w auth_token in
  repos_dict <- resolve_repos w HEADERS repos org user ;;
  fetch_loop w HEADERS repos_dict.


Definition listing_url (kind name : string) : string :=
  "https://api.github.com/" +:+ kind +:+ "/" +:+ name +:+ "/repos".

(** How a computation may move the state: [steps R m] says every run of [m]
    takes a state to an [R]-related one, whether it returns or raises. *)
Definition steps {A} (R : state -> state -> Prop) (m : M A) : Prop :=
  forall st, R st (snd (m st)).

Definition same_fs (s s' : state) : Prop := fs s' = fs s.

Definition same_requests (s s' : state) : Prop := requests s' = requests s.

Definition same_calls (s s' : state) : Prop := calls s' = calls s.

(** Every request added carries the headers [h]. *)
Definition sends (h : list (string * string)) (s s' : state) : Prop :=
  exists new, requests s' = requests s ++ new
    /\ Forall (fun rq => req_headers rq = h) new.

(** No file other than [path] is created or changed. *)
Definition fs_outside (path : string) (s s' : state) : Prop :=
  forall q, q <> path -> fs s' !! q = fs s !! q.

(** The RepoSource of the configuration file of the specification's
    example: its pairs are [(acme, widgets)] and [(acme, gadgets)]. *)
Definition acme_source : RepoSource := [("acme", ["widgets"; "gadgets"])].

(** An entry that maps two owners: [{"acme": ["widgets"], "globex": ["gizmo"]}]. *)
Definition two_owner_entry : pyval :=
  VDict [("acme", VList [VStr "widgets"]); ("globex", VList [VStr "gizmo"])].

(** The record of the specification's example. *)
Definition acme_record : RepoStatsRecord :=
  {| rec_repo := "acme/widgets"; rec_forks := 3; rec_stars := 10;
     rec_watchers := 10; rec_clones_total := 5; rec_clones_unique := 4;
     rec_views_total := 50; rec_views_unique := 20 |}.

(** The records of the sample world for [--org acme], and the state in
    which they have been gathered. *)
Definition gather_records_acme : list pyval * state :=
  match gather acme_world None (Some "acme") None None init_state with
  | (Ok data, st) => (data, st)
  | (Raise _, st) => ([], st)
  end.

(** [m] returns and appends [text] to the file open at [path]. *)
Definition appends (path text : string) (m : M unit) : Prop :=
  forall st t, fs st !! path = Some t ->
    exists st', m st = (Ok tt, st') /\ fs st' !! path = Some (t +:+ text).

(** The characters of a decimal numeral. *)
Definition is_dec_char (c : ascii) : bool := is_digit c || Ascii.eqb c "-".

Definition is_line_break (c : ascii) : bool := Ascii.eqb c CR || Ascii.eqb c LF.

(** One turn of [scanstring], the scan of the rest left to [self]. *)
Definition scanstring_step (self : string -> option (string * string))
    (s : string) : option (string * string) :=
  match s with
  | EmptyString => None
  | String c r =>
      if Ascii.eqb c dquote then Some ("", r)
      else if Ascii.eqb c backslash then
        match r with
        | String e r' =>
            if Ascii.eqb e "u" then
              match r' with
              | String h1 (String h2 (String h3 (String h4 r''))) =>
                  match hex_val h1, hex_val h2, hex_val h3, hex_val h4 with
                  | Some a, Some b, Some x, Some y =>
                      if ((a =? 0) && (b =? 0))%nat
                      then cons_char (ascii_of_nat (16 * x + y)) (self r'')
                      else None
                  | _, _, _, _ => None
                  end
              | _ => None
              end
            else
              match unescape e with
              | Some c' => cons_char c' (self r')
              | None => None
              end
        | EmptyString => None
        end
      else if (nat_of_ascii c <? 32)%nat then None
      else cons_char c (self r)
  end.

(** What separates two items of a list or a dict at nesting level [L]. *)
Definition item_sep (L : nat) : string := "," +:+ newline_indent L.

(** A member of a dict at nesting level [L]: key, colon, value. *)
Definition member_text (L : nat) (kv : string * pyval) : string :=
  encode_str (fst kv) +:+ ": " +:+ dumps L (snd kv).

(** With [fuel], what [dumps] writes for a value reads back as the value. *)
Definition scans_values (fuel : nat) : Prop :=
  forall v level rest,
    well_formed v = true -> continues_number rest = false ->
    String.length (dumps level v) <= fuel ->
    scan_once fuel (dumps level v +:+ rest) = Some (v, rest).

(** With [fuel], the items of a non-empty list read back, up to the closing
    bracket. *)
Definition scans_arrays (fuel : nat) : Prop :=
  forall x l L level rest,
    forallb well_formed (x :: l) = true ->
    String.length (join (item_sep L) (map (dumps L) (x :: l))) + 1 <= fuel ->
    array_items fuel
      (join (item_sep L) (map (dumps L) (x :: l))
       +:+ newline_indent level +:+ "]" +:+ rest)
    = Some (x :: l, rest).

(** With [fuel], the members of a non-empty dict read back, from just after
    the opening quote of the first key up to the closing brace. *)
Definition scans_objects (fuel : nat) : Prop :=
  forall kv d L level rest text,
    forallb (fun kv => well_formed (snd kv)) (kv :: d) = true ->
    String.length (join (item_sep L) (map (member_text L) (kv :: d))) + 1 <= fuel ->
    String dquote text
    = join (item_sep L) (map (member_text L) (kv :: d))
      +:+ newline_indent level +:+ "}" +:+ rest ->
    object_items fuel text = Some (kv :: d, rest).

(** The characters a JSON value may begin with. *)
Definition value_start (c : ascii) : bool :=
  Ascii.eqb c dquote || Ascii.eqb c "{" || Ascii.eqb c "[" || Ascii.eqb c "n"
  || Ascii.eqb c "t" || Ascii.eqb c "f" || is_dec_char c.

(** What a computation returns: [returns P m] says every result of [m]
    satisfies [P]. *)
Definition returns {A} (P : A -> Prop) (m : M A) : Prop :=
  forall st a st', m st = (Ok a, st') -> P a.

(** A world whose service answers with Python values. *)
Definition well_formed_world (w : World) : Prop :=
  forall history rq v, respond w history rq = Ok v -> well_formed v = true.

Definition all_well_formed (data : list pyval) : Prop :=
  forallb well_formed data = true.

(** ** Vocabulary of the further properties *)

Definition same_console (s s' : state) : Prop := console s' = console s.

Definition github_api : string := "https://api.github.com/".

(** Every request added goes to the GitHub API and carries the headers [h]. *)
Definition sends_to_github (h : list (string * string)) (s s' : state) : Prop :=
  exists new, requests s' = requests s ++ new
    /\ Forall (fun rq => String.prefix github_api (req_url rq) = true
                         /\ req_headers rq = h) new.

(** The three requests of one fetch, in the order of lines 15-25. *)
Definition fetch_requests (w : World) (h : list (string * string))
    (owner repo : pyval) : list request :=
  let base := "https://api.github.com/repos/" +:+ py_str w owner +:+ "/" +:+ py_str w repo in
  [Request base h;
   Request (base +:+ "/traffic/views") h;
   Request (base +:+ "/traffic/clones") h].

(** A record as lines 27-36 build it: a dict with the eight keys, in order. *)
Definition is_record (v : pyval) : Prop :=
  exists d, v = VDict d /\ map fst d = fieldnames.

(** The values of a record, in the order of its keys. *)
Definition record_cells (v : pyval) : list pyval :=
  match v with
  | VDict d => map snd d
  | _ => []
  end.

Fixpoint concat_text (l : list string) : string :=
  match l with
  | [] => ""
  | x :: l' => x +:+ concat_text l'
  end.

(** The body GitHub sends with a 404. *)
Definition not_found : pyval := VDict [("message", VStr "Not Found")].

(** A world in which every request is answered with that body, no
    configuration file can be loaded, and [GH_TOKEN] is set. *)
Definition not_found_world : World :=
  {| getenv := fun _ => Some "s3cret";
     respond := fun _ _ => Ok not_found;
     safe_load := fun path => Raise (YAMLError path);
     writable := fun _ => true;
     repr_container := fun _ => "" |}.

(** A world whose configuration file spells the top-level key [owners]. *)
Definition misspelt_world : World :=
  {| getenv := fun _ => None;
     respond := acme_respond;
     safe_load := fun _ => Ok (VDict [("owners", VList [VDict [("acme", VList [VStr "widgets"])]])]);
     writable := fun _ => true;
     repr_container := fun _ => "" |}.

(** The sample world on a file system that refuses every [open(.., "w")]. *)
Definition read_only_world : World :=
  {| getenv := fun _ => None;
     respond := acme_respond;
     safe_load := fun _ => Ok acme_config;
     writable := fun _ => false;
     repr_container := fun _ => "" |}.

(** An entry of the Owners list as a configuration file may give it: a
    first owner with its repositories, and further bindings behind it. *)
Record OwnersEntry : Type := {
  first_owner : string;
  first_repos : list pyval;
  further_keys : list (string * pyval)
}.

Definition entry_value (e : OwnersEntry) : pyval :=
  VDict ((first_owner e, VList (first_repos e)) :: further_keys e).

(** The (owner, repo) arguments the first keys of the entries call for, in
    order. *)
Definition first_key_pairs (entries : list OwnersEntry) : list (pyval * pyval) :=
  flat_map (fun e => map (fun r => (VStr (first_owner e), r)) (first_repos e)) entries.

(** [fetched w h pairs st records st']: the fetcher, run on [pairs] one
    after the other from [st], returns every time; it gives [records] and
    leaves [st']. *)
Inductive fetched (w : World) (h : list (string * string))
    : list (pyval * pyval) -> state -> list pyval -> state -> Prop :=
| fetched_nil st : fetched w h [] st [] st
| fetched_cons p pairs st rec st1 records st2 :
    get_repo_data w h (fst p) (snd p) st = (Ok rec, st1) ->
    fetched w h pairs st1 records st2 ->
    fetched w h (p :: pairs) st (rec :: records) st2.

(** The sample world, except that the detail of a repository called
    [gadgets] is answered with the body of a 404. *)
Definition gadgets_missing_world : World :=
  {| getenv := fun _ => None;
     respond := fun history rq =>
       if ends_with "/gadgets" (req_url rq) then Ok not_found
       else acme_respond history rq;
     safe_load := fun _ => Ok acme_config;
     writable := fun _ => true;
     repr_container := fun _ => "" |}.

Definition three_repo_source : RepoSource :=
  [("acme", ["widgets"; "gadgets"; "gizmos"])].

(** * Properties *)

(** ** The monad *)

Lemma bind_assoc {A B C} (m : M A) (k : A -> M B) (k' : B -> M C) st :
  bind (bind m k) k' st = bind m (fun a => bind (k a) k') st.
Proof. unfold bind. destruct (m st) as [[a|e] st']; reflexivity. Qed.

Lemma lift_ok {A B} (r : result A) (k : A -> M B) st a :
  r = Ok a -> bind (lift r) k st = k a st.
Proof. intros ->. reflexivity. Qed.

(** ** The record of one repository *)

(** C2: when the detail endpoint answers with an object holding
    [forks_count], [stargazers_count] and [watchers_count], and the views
    and clones endpoints with objects holding [count] and [uniques],
    [get_repo_data] returns the record whose [Repo] is ["<owner>/<repo>"] and
    whose seven counters are those values, after exactly the three requests
    detail, views, clones. *)
Theorem get_repo_data_record (w : World) (headers : list (string * string))
    (owner repo : string) (st : state)
    (detail views clones : list (string * pyval))
    (forks stars watchers views_total views_unique clones_total clones_unique : pyval) :
  let base := "https://api.github.com/repos/" +:+ owner +:+ "/" +:+ repo in
  let rq_detail := Request base headers in
  let rq_views := Request (base +:+ "/traffic/views") headers in
  let rq_clones := Request (base +:+ "/traffic/clones") headers in
  respond w (requests st) rq_detail = Ok (VDict detail) ->
  respond w (requests st ++ [rq_detail]) rq_views = Ok (VDict views) ->
  respond w (requests st ++ [rq_detail; rq_views]) rq_clones = Ok (VDict clones) ->
  assoc "forks_count" detail = Some forks ->
  assoc "stargazers_count" detail = Some stars ->
  assoc "watchers_count" detail = Some watchers ->
  assoc "count" views = Some views_total ->
  assoc "uniques" views = Some views_unique ->
  assoc "count" clones = Some clones_total ->
  assoc "uniques" clones = Some clones_unique ->
  get_repo_data w headers (VStr owner) (VStr repo) st
  = (Ok (VDict [("Repo", VStr (owner +:+ "/" +:+ repo));
                ("Forks", forks);
                ("Stars", stars);
                ("Watchers", watchers);
                ("Clones Total", clones_total);
                ("Clones Unique", clones_unique);
                ("Views Total", views_total);
                ("Views Unique", views_unique)]),
     State (requests st ++ [rq_detail; rq_views; rq_clones])
           (calls st ++ [(VStr owner, VStr repo)]) (fs st) (console st)).
Proof.
  intros base rq_detail rq_views rq_clones Hd Hv Hc Hf Hs Hw Hvt Hvu Hct Hcu.
  unfold get_repo_data, bind, log_call, http_get_json, lift, ret; simpl.
  fold base. fold rq_detail. rewrite Hd.
  fold rq_views. rewrite Hv.
  rewrite <- app_assoc. simpl. fold rq_clones. rewrite Hc.
  simpl. rewrite Hf, Hs, Hw, Hvt, Hvu, Hct, Hcu.
  rewrite <- app_assoc. reflexivity.
Qed.

(** The example of the specification: [acme/widgets]. *)
Lemma get_repo_data_record_acme :
  fst (get_repo_data acme_world [] (VStr "acme") (VStr "widgets") init_state)
  = Ok (VDict [("Repo", VStr "acme/widgets"); ("Forks", VInt 3); ("Stars", VInt 10);
               ("Watchers", VInt 10); ("Clones Total", VInt 5);
               ("Clones Unique", VInt 4); ("Views Total", VInt 50);
               ("Views Unique", VInt 20)]).
Proof.
  rewrite (get_repo_data_record acme_world [] "acme" "widgets" init_state
             [("forks_count", VInt 3); ("stargazers_count", VInt 10);
              ("watchers_count", VInt 10)]
             [("count", VInt 50); ("uniques", VInt 20)]
             [("count", VInt 5); ("uniques", VInt 4)]
             (VInt 3) (VInt 10) (VInt 10) (VInt 50) (VInt 20) (VInt 5) (VInt 4));
    reflexivity.
Defined.

(** ** Frames: what a computation leaves alone *)

Section Steps.
Context {R : state -> state -> Prop} `{!PreOrder R}.

Lemma steps_ret {A} (a : A) : steps R (ret a).
Proof. intros st. simpl. reflexivity. Qed.

Lemma steps_raise {A} (e : exn) : steps R (@raise A e).
Proof. intros st. simpl. reflexivity. Qed.

Lemma steps_lift {A} (r : result A) : steps R (lift r).
Proof. intros st. simpl. reflexivity. Qed.

Lemma steps_bind {A B} (m : M A) (k : A -> M B) :
  steps R m -> (forall a, steps R (k a)) -> steps R (bind m k).
Proof.
  intros Hm Hk st. unfold bind.
  specialize (Hm st). destruct (m st) as [[a|e] st']; simpl in *.
  - etransitivity; [exact Hm | apply Hk].
  - exact Hm.
Qed.

Lemma steps_for_append {A B} (body : A -> M B) (xs : list A) :
  (forall x, steps R (body x)) -> steps R (for_append body xs).
Proof.
  intros Hb. induction xs as [|x xs IH]; simpl.
  - apply steps_ret.
  - apply steps_bind; [apply Hb | intros y].
    apply steps_bind; [apply IH | intros ys; apply steps_ret].
Qed.

Lemma steps_for_each {A} (body : A -> M unit) (xs : list A) :
  (forall x, steps R (body x)) -> steps R (for_each body xs).
Proof.
  intros Hb. induction xs as [|x xs IH]; simpl.
  - apply steps_ret.
  - apply steps_bind; [apply Hb | intros _; apply IH].
Qed.
End Steps.

#[local] Instance same_fs_preorder : PreOrder same_fs.
Proof. split; [intros s; reflexivity | intros s1 s2 s3 H1 H2; unfold same_fs in *; congruence]. Qed.

#[local] Instance same_requests_preorder : PreOrder same_requests.
Proof.
  split; [intros s; reflexivity|].
  intros s1 s2 s3 H1 H2; unfold same_requests in *; congruence.
Qed.

#[local] Instance same_calls_preorder : PreOrder same_calls.
Proof.
  split; [intros s; reflexivity|].
  intros s1 s2 s3 H1 H2; unfold same_calls in *; congruence.
Qed.

#[local] Instance sends_preorder h : PreOrder (sends h).
Proof.
  split.
  - intros s. exists []. split; [now rewrite app_nil_r | constructor].
  - intros s1 s2 s3 (n1 & E1 & F1) (n2 & E2 & F2). exists (n1 ++ n2). split.
    + rewrite E2, E1. now rewrite <- app_assoc.
    + apply Forall_app; split; assumption.
Qed.

#[local] Instance fs_outside_preorder path : PreOrder (fs_outside path).
Proof.
  split.
  - intros s q _. reflexivity.
  - intros s1 s2 s3 H1 H2 q Hq. rewrite (H2 q Hq). apply (H1 q Hq).
Qed.

(** A relation that holds whenever the requests are untouched. *)
Lemma sends_of_same_requests h s s' : same_requests s s' -> sends h s s'.
Proof.
  intros E. exists []. split; [rewrite app_nil_r; exact E | constructor].
Qed.

Lemma fs_outside_of_same_fs path s s' : same_fs s s' -> fs_outside path s s'.
Proof. intros E q _. now rewrite E. Qed.

(** *** The primitive operations *)

Lemma http_get_json_same_fs w url h : steps same_fs (http_get_json w url h).
Proof. intros st. reflexivity. Qed.

Lemma http_get_json_same_calls w url h : steps same_calls (http_get_json w url h).
Proof. intros st. reflexivity. Qed.

Lemma http_get_json_sends w url h : steps (sends h) (http_get_json w url h).
Proof.
  intros st. exists [Request url h]. split; [reflexivity|].
  constructor; [reflexivity | constructor].
Qed.

Lemma log_call_same_fs o r : steps same_fs (log_call o r).
Proof. intros st. reflexivity. Qed.

Lemma log_call_same_requests o r : steps same_requests (log_call o r).
Proof. intros st. reflexivity. Qed.

Lemma console_print_same_fs o : steps same_fs (console_print o).
Proof. intros st. reflexivity. Qed.

Lemma console_print_same_requests o : steps same_requests (console_print o).
Proof. intros st. reflexivity. Qed.

Lemma console_print_same_calls o : steps same_calls (console_print o).
Proof. intros st. reflexivity. Qed.

Lemma open_w_same_requests w path : steps same_requests (open_w w path).
Proof. intros st. unfold open_w. destruct (writable w path); reflexivity. Qed.

Lemma open_w_same_calls w path : steps same_calls (open_w w path).
Proof. intros st. unfold open_w. destruct (writable w path); reflexivity. Qed.

Lemma file_write_same_requests path text : steps same_requests (file_write path text).
Proof. intros st. reflexivity. Qed.

Lemma file_write_same_calls path text : steps same_calls (file_write path text).
Proof. intros st. reflexivity. Qed.

Lemma open_w_fs_outside w path : steps (fs_outside path) (open_w w path).
Proof.
  intros st q Hq. unfold open_w. destruct (writable w path); simpl; [|reflexivity].
  now apply lookup_insert_ne.
Qed.

Lemma file_write_fs_outside path text : steps (fs_outside path) (file_write path text).
Proof. intros st q Hq. simpl. now apply lookup_insert_ne. Qed.

(** Lift a frame proved for one relation to a weaker one. *)
Lemma steps_weaken {A} (R R' : state -> state -> Prop) (m : M A) :
  (forall s s', R s s' -> R' s s') -> steps R m -> steps R' m.
Proof. intros HR Hm st. apply HR, Hm. Qed.

Create HintDb frames.

#[local] Hint Resolve steps_ret steps_raise steps_lift
  http_get_json_same_fs http_get_json_same_calls http_get_json_sends
  log_call_same_fs log_call_same_requests
  console_print_same_fs console_print_same_requests console_print_same_calls
  open_w_same_requests open_w_same_calls file_write_same_requests
  file_write_same_calls open_w_fs_outside file_write_fs_outside : frames.

(** Walk through binds and loops, closing the leaves from the database. *)
Ltac frame :=
  repeat first
    [ progress intros
    | apply steps_bind
    | apply steps_for_append
    | apply steps_for_each
    | solve [eauto with frames typeclass_instances] ].

Lemma log_call_sends h o r : steps (sends h) (log_call o r).
Proof. eapply steps_weaken; [apply sends_of_same_requests | apply log_call_same_requests]. Qed.

Lemma console_print_fs_outside path o : steps (fs_outside path) (console_print o).
Proof. eapply steps_weaken; [apply fs_outside_of_same_fs | apply console_print_same_fs]. Qed.

#[local] Hint Resolve log_call_sends console_print_fs_outside : frames.

(** *** The stages of [main] *)

Lemma get_repo_data_same_fs w h o r : steps same_fs (get_repo_data w h o r).
Proof. unfold get_repo_data. frame. Qed.

Lemma get_repo_data_sends w h o r : steps (sends h) (get_repo_data w h o r).
Proof. unfold get_repo_data. frame. Qed.

#[local] Hint Resolve get_repo_data_same_fs get_repo_data_sends : frames.

Lemma fetch_entry_same_fs w h e : steps same_fs (fetch_entry w h e).
Proof. unfold fetch_entry. frame. Qed.

Lemma fetch_entry_sends w h e : steps (sends h) (fetch_entry w h e).
Proof. unfold fetch_entry. frame. Qed.

#[local] Hint Resolve fetch_entry_same_fs fetch_entry_sends : frames.

Lemma fetch_loop_same_fs w h rd : steps same_fs (fetch_loop w h rd).
Proof. unfold fetch_loop. destruct rd; frame. Qed.

Lemma fetch_loop_sends w h rd : steps (sends h) (fetch_loop w h rd).
Proof. unfold fetch_loop. destruct rd; frame. Qed.

Lemma resolve_repos_same_fs w h repos org user :
  steps same_fs (resolve_repos w h repos org user).
Proof.
  unfold resolve_repos, parse_repos_list_from_yaml.
  destruct (truthy repos); [frame|].
  destruct (truthy org); [frame|].
  destruct (truthy user); frame.
Qed.

Lemma resolve_repos_sends w h repos org user :
  steps (sends h) (resolve_repos w h repos org user).
Proof.
  unfold resolve_repos, parse_repos_list_from_yaml.
  destruct (truthy repos); [frame|].
  destruct (truthy org); [frame|].
  destruct (truthy user); frame.
Qed.

Lemma resolve_repos_same_calls w h repos org user :
  steps same_calls (resolve_repos w h repos org user).
Proof.
  unfold resolve_repos, parse_repos_list_from_yaml.
  destruct (truthy repos); [frame|].
  destruct (truthy org); [frame|].
  destruct (truthy user); frame.
Qed.

#[local] Hint Resolve fetch_loop_same_fs fetch_loop_sends
  resolve_repos_same_fs resolve_repos_sends resolve_repos_same_calls : frames.

Lemma gather_same_fs w repos org user auth_token :
  steps same_fs (gather w repos org user auth_token).
Proof. unfold gather. frame. Qed.

Lemma gather_sends w repos org user auth_token :
  steps (sends (resolve_headers w auth_token)) (gather w repos org user auth_token).
Proof. unfold gather. frame. Qed.

Lemma writerow_same_requests w path rowdict :
  steps same_requests (writerow w path rowdict).
Proof. unfold writerow. frame. Qed.

Lemma writerow_fs_outside w path rowdict :
  steps (fs_outside path) (writerow w path rowdict).
Proof. unfold writerow. frame. Qed.

#[local] Hint Resolve writerow_same_requests writerow_fs_outside : frames.

Lemma write_csv_fs_outside w final_data :
  steps (fs_outside "data.csv") (write_csv w final_data).
Proof. unfold write_csv, console_line, writeheader, csv_rowdict. frame. Qed.

Lemma output_sink_same_requests w output_file final_data :
  steps same_requests (output_sink w output_file final_data).
Proof.
  unfold output_sink, write_csv, write_json, write_table, console_line,
    writeheader, csv_rowdict, table_row.
  destruct (truthy output_file); [|frame].
  destruct (String.eqb _ ".csv"); [frame|].
  destruct (String.eqb _ ".json"); frame.
Qed.

Lemma main_split w repos org user output_file auth_token st :
  main w repos org user output_file auth_token st
  = bind (gather w repos org user auth_token) (output_sink w output_file) st.
Proof. unfold main, gather. now rewrite bind_assoc. Qed.

Lemma main_sends w repos org user output_file auth_token :
  steps (sends (resolve_headers w auth_token))
        (main w repos org user output_file auth_token).
Proof.
  intros st. rewrite main_split. revert st.
  apply steps_bind; [apply gather_sends | intros data].
  eapply steps_weaken; [apply sends_of_same_requests | apply output_sink_same_requests].
Qed.

Lemma truthy_some (s : string) : s <> "" -> truthy (Some s) = true.
Proof. destruct s; [congruence | reflexivity]. Qed.

Lemma bind_cases {A B} (m : M A) (k : A -> M B) st :
  (exists a, fst (m st) = Ok a /\ bind m k st = k a (snd (m st)))
  \/ (exists e, fst (m st) = Raise e /\ bind m k st = (Raise e, snd (m st))).
Proof.
  unfold bind. destruct (m st) as [[a|e] st']; simpl; [left | right]; eauto.
Qed.

(** ** The repository source *)

(** With [--org] in effect the resolver issues one request, the listing of
    the organisation. *)
Lemma resolve_repos_org_request w h repos org user st :
  truthy repos = false -> truthy org = true ->
  requests (snd (resolve_repos w h repos org user st))
  = requests st ++ [Request (listing_url "orgs" (clean_owner (fstr_opt org))) h].
Proof.
  intros Hr Ho. unfold resolve_repos. rewrite Hr, Ho.
  match goal with |- context [bind ?m ?k st] =>
    destruct (bind_cases m k st) as [(a & _ & E) | (e & _ & E)]; rewrite E; clear E
  end; [|reflexivity].
  match goal with |- requests (snd (?k ?s)) = _ =>
    assert (F : steps same_requests k) by frame; rewrite (F s)
  end.
  reflexivity.
Qed.

(** With [--user] in effect the resolver issues one request, the listing of
    the user. *)
Lemma resolve_repos_user_request w h repos org user st :
  truthy repos = false -> truthy org = false -> truthy user = true ->
  requests (snd (resolve_repos w h repos org user st))
  = requests st ++ [Request (listing_url "users" (clean_owner (fstr_opt user))) h].
Proof.
  intros Hr Ho Hu. unfold resolve_repos. rewrite Hr, Ho, Hu.
  match goal with |- context [bind ?m ?k st] =>
    destruct (bind_cases m k st) as [(a & _ & E) | (e & _ & E)]; rewrite E; clear E
  end; [|reflexivity].
  match goal with |- requests (snd (?k ?s)) = _ =>
    assert (F : steps same_requests k) by frame; rewrite (F s)
  end.
  reflexivity.
Qed.

(** The comprehension of lines 69 and 74 over items that all have a name. *)
Lemma names_of_items (items names : list pyval) :
  Forall2 (fun item name => py_getitem item (VStr "name") = Ok name) items names ->
  forall st,
    for_append (fun repo => lift (py_getitem repo (VStr "name"))) items st
    = (Ok names, st).
Proof.
  induction 1 as [|item name items names Hn _ IH]; intros st; simpl; [reflexivity|].
  unfold bind, lift. rewrite Hn. unfold bind in IH. now rewrite IH.
Qed.

(** The [--org] branch on a listing whose items all have a name. *)
Lemma resolve_repos_org_listing w h repos org user items names st :
  truthy repos = false -> truthy org = true ->
  Forall2 (fun item name => py_getitem item (VStr "name") = Ok name) items names ->
  respond w (requests st) (Request (listing_url "orgs" (clean_owner (fstr_opt org))) h)
  = Ok (VList items) ->
  resolve_repos w h repos org user st
  = (Ok (Some (VDict [("Owners",
                       VList [VDict [(clean_owner (fstr_opt org), VList names)]])])),
     State (requests st ++ [Request (listing_url "orgs" (clean_owner (fstr_opt org))) h])
           (calls st) (fs st) (console st)).
Proof.
  intros Hr Ho Hnames Hresp. unfold resolve_repos. rewrite Hr, Ho.
  unfold bind at 1. unfold http_get_json.
  change (Request ("https://api.github.com/orgs/" +:+ clean_owner (fstr_opt org)
                   +:+ "/repos") h)
    with (Request (listing_url "orgs" (clean_owner (fstr_opt org))) h).
  rewrite Hresp. unfold bind at 1. unfold lift at 1. cbn [py_iter].
  unfold bind. now rewrite (names_of_items items names Hnames).
Qed.

(** The [--user] branch on a listing whose items all have a name. *)
Lemma resolve_repos_user_listing w h repos org user items names st :
  truthy repos = false -> truthy org = false -> truthy user = true ->
  Forall2 (fun item name => py_getitem item (VStr "name") = Ok name) items names ->
  respond w (requests st) (Request (listing_url "users" (clean_owner (fstr_opt user))) h)
  = Ok (VList items) ->
  resolve_repos w h repos org user st
  = (Ok (Some (VDict [("Owners",
                       VList [VDict [(clean_owner (fstr_opt user), VList names)]])])),
     State (requests st ++ [Request (listing_url "users" (clean_owner (fstr_opt user))) h])
           (calls st) (fs st) (console st)).
Proof.
  intros Hr Ho Hu Hnames Hresp. unfold resolve_repos. rewrite Hr, Ho, Hu.
  unfold bind at 1. unfold http_get_json.
  change (Request ("https://api.github.com/users/" +:+ clean_owner (fstr_opt user)
                   +:+ "/repos") h)
    with (Request (listing_url "users" (clean_owner (fstr_opt user))) h).
  rewrite Hresp. unfold bind at 1. unfold lift at 1. cbn [py_iter].
  unfold bind. now rewrite (names_of_items items names Hnames).
Qed.

(** A loop that only looks values up leaves the state as it is. *)
Lemma for_append_lift_state {A B} (f : A -> result B) (xs : list A) st :
  snd (for_append (fun x => lift (f x)) xs st) = st.
Proof.
  induction xs as [|x xs IH]; simpl; [reflexivity|].
  unfold bind, lift. destruct (f x); [|reflexivity].
  unfold bind, lift in IH.
  destruct (for_append _ xs st) as [[ys|e] st']; simpl in *; exact IH.
Qed.

(** With [--org] in effect the resolver leaves the state it found, with
    the listing request of the organisation added, and raises what the
    service raises. *)
Lemma resolve_repos_org_state w h repos org user st :
  truthy repos = false -> truthy org = true ->
  let rq := Request (listing_url "orgs" (clean_owner (fstr_opt org))) h in
  exists r,
    resolve_repos w h repos org user st
    = (r, State (requests st ++ [rq]) (calls st) (fs st) (console st))
    /\ forall e, respond w (requests st) rq = Raise e -> r = Raise e.
Proof.
  intros Hr Ho rq. unfold resolve_repos. rewrite Hr, Ho.
  unfold bind at 1. unfold http_get_json.
  change (Request ("https://api.github.com/orgs/" +:+ clean_owner (fstr_opt org)
                   +:+ "/repos") h) with rq.
  destruct (respond w (requests st) rq) as [org_repos|e0].
  - unfold bind at 1. unfold lift at 1.
    destruct (py_iter org_repos) as [items|e1];
      [|eexists; split; [reflexivity | discriminate]].
    unfold bind.
    pose proof (for_append_lift_state (fun repo => py_getitem repo (VStr "name")) items
                  (State (requests st ++ [rq]) (calls st) (fs st) (console st))) as Hs.
    destruct (for_append _ items _) as [[names|e2] st']; simpl in Hs; subst st';
      eexists; (split; [reflexivity | discriminate]).
  - exists (Raise e0). split; [reflexivity|]. intros e He. injection He as He. now subst.
Qed.

(** C9: the selectors are tried in the fixed order [--repos], [--org],
    [--user], and the first one in effect is the one source used. With
    [--repos] in effect the result is what the loader gives for that file,
    in the unchanged state: no request is issued, whatever [--org] and
    [--user] are. Without [--repos] and with [--org] in effect the state
    reached is the initial one with the listing request of the organisation
    added, so the user is never listed; a listing whose items have names
    resolves to the one entry of the cleaned organisation with those names,
    an exception of that request is the result, and [--repos] and [--user]
    make no difference to the outcome. *)
Theorem selector_precedence (w : World) (h : list (string * string))
    (repos org user : option string) (st : state) :
  (truthy repos = true ->
     resolve_repos w h repos org user st
     = (match safe_load w (fstr_opt repos) with
        | Ok repos_dict => Ok (Some repos_dict)
        | Raise e => Raise e
        end, st)
     /\ resolve_repos w h repos org user st = resolve_repos w h repos None None st
     /\ requests (snd (resolve_repos w h repos org user st)) = requests st)
  /\ (truthy repos = false -> truthy org = true ->
     let owner := clean_owner (fstr_opt org) in
     let rq := Request (listing_url "orgs" owner) h in
     snd (resolve_repos w h repos org user st)
     = State (requests st ++ [rq]) (calls st) (fs st) (console st)
     /\ (forall items names,
           respond w (requests st) rq = Ok (VList items) ->
           Forall2 (fun item name => py_getitem item (VStr "name") = Ok name)
                   items names ->
           fst (resolve_repos w h repos org user st)
           = Ok (Some (VDict [("Owners", VList [VDict [(owner, VList names)]])])))
     /\ (forall e, respond w (requests st) rq = Raise e ->
           fst (resolve_repos w h repos org user st) = Raise e)
     /\ resolve_repos w h repos org user st = resolve_repos w h None org None st
     /\ requests (snd (resolve_repos w h repos org user st))
        = requests st ++ [Request (listing_url "orgs" (clean_owner (fstr_opt org))) h]).
Proof.
  split.
  - intros Hr. split; [|split].
    + unfold resolve_repos, parse_repos_list_from_yaml, bind, lift. rewrite Hr.
      now destruct (safe_load w (fstr_opt repos)).
    + unfold resolve_repos. now rewrite Hr.
    + unfold resolve_repos, parse_repos_list_from_yaml. rewrite Hr.
      match goal with |- requests (snd (?m st)) = _ =>
        assert (F : steps same_requests m) by frame; apply (F st)
      end.
  - intros Hr Ho owner rq.
    destruct (resolve_repos_org_state w h repos org user st Hr Ho) as (r & Hs & He).
    split; [now rewrite Hs|]. split; [|split; [now rewrite Hs|split]].
    + intros items names Hresp Hnames.
      now rewrite (resolve_repos_org_listing w h repos org user items names st
                     Hr Ho Hnames Hresp).
    + unfold resolve_repos. rewrite Hr, Ho. reflexivity.
    + now apply resolve_repos_org_request.
Qed.

(** All three selectors given: the configuration file is the source and
    nothing is requested. [--org] and [--user] given: the organisation is
    listed and resolved, the user is not. *)
Lemma selector_precedence_acme :
  resolve_repos acme_world [] (Some "repos.yml") (Some "acme") (Some "bob") init_state
  = (Ok (Some acme_config), init_state)
  /\ snd (resolve_repos acme_world [] None (Some "acme") (Some "bob") init_state)
     = State [Request "https://api.github.com/orgs/acme/repos" []] [] ∅ []
  /\ fst (resolve_repos acme_world [] None (Some "acme") (Some "bob") init_state)
     = Ok (Some (VDict [("Owners", VList [VDict [("acme", VList [VStr "widgets"])]])])).
Proof.
  destruct (proj1 (selector_precedence acme_world [] (Some "repos.yml") (Some "acme")
                     (Some "bob") init_state) eq_refl) as (Hfile & _).
  destruct (proj2 (selector_precedence acme_world [] None (Some "acme")
                     (Some "bob") init_state) eq_refl eq_refl) as (Hstate & Hlist & _).
  split; [exact Hfile|]. split; [exact Hstate|].
  apply (Hlist [VDict [("name", VStr "widgets")]] [VStr "widgets"]);
    [reflexivity | repeat constructor].
Defined.

(** ** The access token *)



(** ** The output sink *)

(** C5: with an output path whose suffix is neither [.csv] nor [.json] the
    run ends in an exception and the file system is the one it started
    with; when the records were gathered, the exception is the
    [ValueError] of line 132. *)
Theorem unsupported_extension_fails (w : World)
    (repos org user auth_token : option string) (path : string) (st : state) :
  path <> "" ->
  Path_suffix path <> ".csv" ->
  Path_suffix path <> ".json" ->
  let run := main w repos org user (Some path) auth_token st in
  is_ok (fst run) = false
  /\ fs (snd run) = fs st
  /\ (forall data st1,
        gather w repos org user auth_token st = (Ok data, st1) ->
        run = (Raise (ValueError "Output file must be CSV or JSON"), st1)).
Proof.
  intros Hp Hcsv Hjson run.
  assert (Hsink : forall data,
            output_sink w (Some path) data
            = raise (ValueError "Output file must be CSV or JSON")).
  { intros data. unfold output_sink. rewrite truthy_some by assumption. simpl.
    apply String.eqb_neq in Hcsv, Hjson. now rewrite Hcsv, Hjson. }
  assert (Hrun : run = bind (gather w repos org user auth_token)
                         (fun _ => raise (ValueError "Output file must be CSV or JSON")) st).
  { unfold run. rewrite main_split. unfold bind.
    destruct (gather w repos org user auth_token st) as [[data|e] st1];
      [now rewrite Hsink | reflexivity]. }
  pose proof (gather_same_fs w repos org user auth_token st) as Hfs.
  rewrite Hrun. unfold bind, raise.
  destruct (gather w repos org user auth_token st) as [[data|e] st1]; simpl in *.
  - repeat split; [exact Hfs|]. intros data' st1' [= _ <-]. reflexivity.
  - repeat split; [exact Hfs|]. intros data' st1' [=].
Qed.

(** [--org acme -f report.txt] in the sample world. *)
Lemma unsupported_extension_acme :
  main acme_world None (Some "acme") None (Some "report.txt") None init_state
  = (Raise (ValueError "Output file must be CSV or JSON"),
     snd (gather acme_world None (Some "acme") None None init_state)).
Proof.
  destruct (unsupported_extension_fails acme_world None (Some "acme") None None
              "report.txt" init_state) as (_ & _ & H);
    [discriminate | discriminate | discriminate |].
  apply (H (fst (gather_records_acme))).
  reflexivity.
Defined.

(** An empty output path is false at line 88 and counts as omitted: the
    table is printed. *)
Lemma empty_output_path_is_omitted w data :
  output_sink w (Some "") data = output_sink w None data.
Proof. reflexivity. Qed.

(** C1 (as the code behaves): with an output path of suffix [.csv] the run
    may create or change the file [data.csv] of line 93 and no other file;
    a destination other than [data.csv] is left as it was. *)
Theorem csv_output_goes_to_data_csv (w : World)
    (repos org user auth_token : option string) (path : string) (st : state) :
  Path_suffix path = ".csv" ->
  fs_outside "data.csv" st (snd (main w repos org user (Some path) auth_token st)).
Proof.
  intros Hcsv. rewrite main_split. revert st.
  change (steps (fs_outside "data.csv")
            (bind (gather w repos org user auth_token) (output_sink w (Some path)))).
  apply steps_bind.
  - eapply steps_weaken; [apply fs_outside_of_same_fs | apply gather_same_fs].
  - intros data. unfold output_sink.
    destruct path as [|c p]; [discriminate Hcsv|].
    cbn [truthy fstr_opt]. rewrite Hcsv. simpl. apply write_csv_fs_outside.
Qed.

(** [--org acme -f out.csv] in the sample world, with no file to begin
    with: the run succeeds, [out.csv] does not exist afterwards, and the
    CSV text is in [data.csv]. *)
Lemma csv_output_acme :
  let run := main acme_world None (Some "acme") None (Some "out.csv") None init_state in
  fst run = Ok tt
  /\ fs (snd run) !! "out.csv" = None
  /\ fs (snd run) !! "data.csv"
     = Some (crlf_lines [csv_header; "acme/widgets,3,10,10,5,4,50,20"]).
Proof.
  intros run. split; [vm_compute; reflexivity|]. split.
  - pose proof (csv_output_goes_to_data_csv acme_world None (Some "acme") None None
                  "out.csv" init_state eq_refl "out.csv") as H.
    unfold run. rewrite H; [apply lookup_empty | discriminate].
  - vm_compute. reflexivity.
Defined.

(** ** The fetch loop *)

Lemma for_append_ext {A B} (f g : A -> M B) (xs : list A) :
  (forall x st, f x st = g x st) ->
  forall st, for_append f xs st = for_append g xs st.
Proof.
  intros Hfg. induction xs as [|x xs IH]; intros st; simpl; [reflexivity|].
  unfold bind. rewrite Hfg. destruct (g x st) as [[y|e] st1]; [|reflexivity].
  rewrite IH. reflexivity.
Qed.

Lemma for_append_map {A B C} (f : B -> M C) (g : A -> B) (xs : list A) st :
  for_append f (map g xs) st = for_append (fun x => f (g x)) xs st.
Proof.
  revert st. induction xs as [|x xs IH]; intros st; simpl; [reflexivity|].
  unfold bind. destruct (f (g x) st) as [[y|e] st1]; [|reflexivity].
  rewrite IH. reflexivity.
Qed.

(** A loop whose every iteration returns, logs the invocations [ev x] and
    relates its result to [x] by [Q] returns the results in order, with the
    invocations of all iterations logged in order. *)
Lemma for_append_trace {A B} (body : A -> M B) (ev : A -> list (pyval * pyval))
    (Q : A -> B -> Prop) (xs : list A) :
  (forall x, In x xs -> forall st, exists y st',
      body x st = (Ok y, st') /\ calls st' = calls st ++ ev x /\ Q x y) ->
  forall st, exists ys st',
    for_append body xs st = (Ok ys, st')
    /\ calls st' = calls st ++ concat (map ev xs)
    /\ Forall2 Q xs ys.
Proof.
  induction xs as [|x xs IH]; intros Hbody st; simpl.
  - exists [], st. rewrite app_nil_r. repeat split. constructor.
  - destruct (Hbody x (or_introl eq_refl) st) as (y & st1 & Ey & Ec & HQ).
    destruct (IH (fun x' Hin => Hbody x' (or_intror Hin)) st1)
      as (ys & st2 & Eys & Ecs & HQs).
    exists (y :: ys), st2. unfold bind. rewrite Ey, Eys. simpl.
    repeat split.
    + rewrite Ecs, Ec. now rewrite <- app_assoc.
    + now constructor.
Qed.

Lemma Forall2_concat_flat {A B C} (Q : A -> B -> Prop) (f : C -> list A)
    (cs : list C) (chunks : list (list B)) :
  Forall2 (fun c ys => Forall2 Q (f c) ys) cs chunks ->
  Forall2 Q (flat_map f cs) (concat chunks).
Proof.
  induction 1 as [|c ys cs chunks Hc _ IH]; simpl; [constructor|].
  now apply Forall2_app.
Qed.

(** Every invocation of the fetcher is logged, whether it returns or not. *)
Lemma get_repo_data_calls w h o r st :
  calls (snd (get_repo_data w h o r st)) = calls st ++ [(o, r)].
Proof.
  unfold get_repo_data.
  match goal with |- context [bind (log_call o r) ?k st] =>
    destruct (bind_cases (log_call o r) k st) as [(a & _ & E) | (e & Hx & _)];
      [rewrite E; clear E | discriminate Hx];
    assert (F : steps same_calls (k a)) by frame
  end.
  rewrite (F _). reflexivity.
Qed.

(** A loop whose turns log a prefix of their events [ev x], and all of them
    when they return, logs a prefix of the events of all turns, and all of
    them when it returns. *)
Lemma for_append_progress {A B X} (proj : state -> list X) (body : A -> M B)
    (ev : A -> list X) (xs : list A) :
  (forall x st, exists done rest,
      ev x = done ++ rest
      /\ proj (snd (body x st)) = proj st ++ done
      /\ (is_ok (fst (body x st)) = true -> rest = [])) ->
  forall st, exists done rest,
    concat (map ev xs) = done ++ rest
    /\ proj (snd (for_append body xs st)) = proj st ++ done
    /\ (is_ok (fst (for_append body xs st)) = true -> rest = []).
Proof.
  intros Hbody. induction xs as [|x xs IH]; intros st; simpl.
  - exists [], []. repeat split. now rewrite app_nil_r.
  - destruct (Hbody x st) as (d1 & r1 & E1 & P1 & O1). unfold bind.
    destruct (body x st) as [[y|e] st1]; simpl in *.
    + rewrite (O1 eq_refl), app_nil_r in E1. subst d1.
      destruct (IH st1) as (d2 & r2 & E2 & P2 & O2).
      exists (ev x ++ d2), r2.
      destruct (for_append body xs st1) as [[ys|e] st2]; simpl in *;
        (split; [now rewrite E2, app_assoc|]);
        (split; [now rewrite P2, P1, app_assoc|]); [exact O2 | discriminate].
    + exists d1, (r1 ++ concat (map ev xs)).
      split; [now rewrite E1, app_assoc|]. split; [exact P1 | discriminate].
Qed.

Lemma get_repo_data_calls_progress w h o r st :
  exists done rest,
    [(o, r)] = done ++ rest
    /\ calls (snd (get_repo_data w h o r st)) = calls st ++ done
    /\ (is_ok (fst (get_repo_data w h o r st)) = true -> rest = []).
Proof.
  exists [(o, r)], []. repeat split. apply get_repo_data_calls.
Qed.

(** A loop over two lists, one after the other. *)
Lemma for_append_app {A B} (f : A -> M B) (xs ys : list A) st :
  for_append f (xs ++ ys) st
  = bind (for_append f xs)
         (fun a => bind (for_append f ys) (fun b => ret (a ++ b))) st.
Proof.
  revert st. induction xs as [|x xs IH]; intros st; simpl.
  - unfold bind, ret. destruct (for_append f ys st) as [[b|e] st']; reflexivity.
  - unfold bind, ret in *. destruct (f x st) as [[y|e] st1]; [|reflexivity].
    rewrite IH. destruct (for_append f xs st1) as [[a|e] st2]; [|reflexivity].
    cbv beta iota. destruct (for_append f ys st2) as [[b|e] st3]; reflexivity.
Qed.

(** Two nested loops that append to one list are one loop over the items
    of the inner loops, in order. *)
Lemma for_append_flat_map {A B C} (f : B -> M C) (g : A -> list B) (xs : list A) st :
  bind (for_append (fun x => for_append f (g x)) xs)
       (fun chunks => ret (concat chunks)) st
  = for_append f (flat_map g xs) st.
Proof.
  revert st. induction xs as [|x xs IH]; intros st; simpl; [reflexivity|].
  rewrite for_append_app. unfold bind in *.
  destruct (for_append f (g x) st) as [[a|e] st1]; [|reflexivity].
  rewrite <- IH.
  destruct (for_append _ xs st1) as [[chunks|e] st2]; reflexivity.
Qed.

(** The fetcher run on a list of (owner, repo) arguments. *)
Lemma fetched_run w h pairs st records st' :
  fetched w h pairs st records st' ->
  for_append (fun p => get_repo_data w h (fst p) (snd p)) pairs st = (Ok records, st').
Proof.
  induction 1 as [st|p pairs st rec st1 records st2 Hp _ IH]; simpl; [reflexivity|].
  unfold bind. now rewrite Hp, IH.
Qed.

Lemma fetched_calls w h pairs st records st' :
  fetched w h pairs st records st' -> calls st' = calls st ++ pairs.
Proof.
  induction 1 as [st|[o r] pairs st rec st1 records st2 Hp _ IH]; simpl.
  - now rewrite app_nil_r.
  - pose proof (get_repo_data_calls w h o r st) as Hc. simpl in Hp.
    rewrite Hp in Hc. simpl in Hc. rewrite IH, Hc. now rewrite <- app_assoc.
Qed.

Lemma concat_singletons {X} (l : list X) : concat (map (fun x => [x]) l) = l.
Proof. induction l; simpl; [reflexivity | now f_equal]. Qed.

(** The fetch loop on entries with further keys is the fetcher run on the
    pairs of their first keys. *)
Lemma fetch_loop_entries w h (entries : list OwnersEntry) more st :
  fetch_loop w h (Some (VDict (("Owners", VList (map entry_value entries)) :: more))) st
  = for_append (fun p => get_repo_data w h (fst p) (snd p)) (first_key_pairs entries) st.
Proof.
  unfold fetch_loop.
  rewrite lift_ok with (a := VList (map entry_value entries)) by reflexivity.
  rewrite lift_ok with (a := map entry_value entries) by reflexivity.
  unfold first_key_pairs. rewrite <- for_append_flat_map.
  unfold bind. rewrite for_append_map.
  rewrite (for_append_ext _
             (fun e => for_append (fun p => get_repo_data w h (fst p) (snd p))
                         (map (fun r => (VStr (first_owner e), r)) (first_repos e)))).
  - reflexivity.
  - intros [k items others] st0. cbn [first_owner first_repos]. unfold fetch_entry, entry_value.
    cbn [first_owner first_repos further_keys].
    rewrite lift_ok with (a := VStr k) by reflexivity.
    rewrite lift_ok with (a := VList items)
      by (cbn [py_getitem assoc]; now rewrite String.eqb_refl).
    rewrite lift_ok with (a := items) by reflexivity.
    now rewrite for_append_map.
Qed.

(** A record the fetcher returns names its repository. *)
Lemma get_repo_data_repo w h o r st rec st' :
  get_repo_data w h o r st = (Ok rec, st') ->
  py_getitem rec (VStr "Repo") = Ok (VStr (py_str w o +:+ "/" +:+ py_str w r)).
Proof.
  unfold get_repo_data, bind, log_call, http_get_json, lift, ret. simpl.
  repeat match goal with
  | |- context [match ?x with Ok _ => _ | Raise _ => _ end] =>
      destruct x; simpl; try discriminate
  end.
  intros [= <- _]. reflexivity.
Qed.

(** C3: for a RepoSource (single-key entries) on whose pairs the fetcher
    returns, the loop returns one record per pair, in the order of the
    pairs: the fetcher is invoked once per pair, in that order, and the
    i-th record is the one of the i-th pair. *)
Theorem fetch_loop_once_per_pair (w : World) (h : list (string * string))
    (src : RepoSource) (st : state) :
  (forall p, In p (source_pairs src) -> forall st0,
      is_ok (fst (get_repo_data w h (VStr (fst p)) (VStr (snd p)) st0)) = true) ->
  exists records st',
    fetch_loop w h (Some (source_value src)) st = (Ok records, st')
    /\ calls st' = calls st ++ map pair_value (source_pairs src)
    /\ List.length records = List.length (source_pairs src)
    /\ Forall2 (fun p rec =>
                  py_getitem rec (VStr "Repo") = Ok (VStr (fst p +:+ "/" +:+ snd p)))
               (source_pairs src) records.
Proof.
  intros Hok.
  assert (Hentry : forall e, In e src -> forall st0, exists ys st1,
             fetch_entry w h (VDict [(fst e, VList (map VStr (snd e)))]) st0
             = (Ok ys, st1)
             /\ calls st1 = calls st0
                            ++ map pair_value (map (fun r => (fst e, r)) (snd e))
             /\ Forall2 (fun p rec =>
                  py_getitem rec (VStr "Repo") = Ok (VStr (fst p +:+ "/" +:+ snd p)))
                  (map (fun r => (fst e, r)) (snd e)) ys).
  { intros [o rs] Hin st0. simpl fst; simpl snd.
    unfold fetch_entry. simpl py_first. rewrite lift_ok with (a := VStr o) by reflexivity.
    rewrite lift_ok with (a := VList (map VStr rs))
      by (simpl; now rewrite String.eqb_refl).
    rewrite lift_ok with (a := map VStr rs) by reflexivity.
    rewrite for_append_map.
    destruct (for_append_trace
                (fun x => get_repo_data w h (VStr o) (VStr x))
                (fun x => [(VStr o, VStr x)])
                (fun x rec => py_getitem rec (VStr "Repo")
                              = Ok (VStr (o +:+ "/" +:+ x))) rs) with (st := st0)
      as (ys & st1 & E & Ec & HQ).
    - intros r Hr st2.
      assert (Hp : In (o, r) (source_pairs src)).
      { unfold source_pairs. apply in_flat_map. exists (o, rs). split; [exact Hin|].
        simpl. now apply in_map. }
      specialize (Hok (o, r) Hp st2). simpl in Hok.
      pose proof (get_repo_data_calls w h (VStr o) (VStr r) st2) as Hc.
      destruct (get_repo_data w h (VStr o) (VStr r) st2) as [[rec|e] st3] eqn:Eg;
        [|discriminate Hok].
      exists rec, st3. repeat split; [exact Hc|].
      apply (get_repo_data_repo _ _ _ _ _ _ _ Eg).
    - exists ys, st1. split; [exact E|]. split.
      + rewrite Ec. f_equal. clear. induction rs; simpl; [reflexivity | now f_equal].
      + clear -HQ. induction HQ; simpl; constructor; assumption. }
  destruct (for_append_trace
              (fun e => fetch_entry w h (VDict [(fst e, VList (map VStr (snd e)))]))
              (fun e => map pair_value (map (fun r => (fst e, r)) (snd e)))
              (fun e ys => Forall2 (fun p rec =>
                  py_getitem rec (VStr "Repo") = Ok (VStr (fst p +:+ "/" +:+ snd p)))
                  (map (fun r => (fst e, r)) (snd e)) ys) src Hentry st)
    as (chunks & st' & E & Ec & HQ).
  exists (concat chunks), st'.
  assert (HF : Forall2 (fun p rec =>
                 py_getitem rec (VStr "Repo") = Ok (VStr (fst p +:+ "/" +:+ snd p)))
                 (source_pairs src) (concat chunks)).
  { unfold source_pairs. now apply Forall2_concat_flat. }
  split; [|split; [|split]].
  - unfold fetch_loop, source_value.
    rewrite lift_ok with (a := VList (map (fun e => VDict [(fst e, VList (map VStr (snd e)))]) src))
      by reflexivity.
    rewrite lift_ok with (a := map (fun e => VDict [(fst e, VList (map VStr (snd e)))]) src)
      by reflexivity.
    unfold bind at 1. rewrite for_append_map, E. reflexivity.
  - rewrite Ec. f_equal. unfold source_pairs. clear.
    induction src as [|e src IH]; simpl; [reflexivity|].
    rewrite map_app. now f_equal.
  - symmetry. eapply Forall2_length. exact HF.
  - exact HF.
Qed.

(** The configuration file of the specification's example. *)
Lemma fetch_loop_acme :
  exists records st',
    fetch_loop acme_world [] (Some (source_value acme_source)) init_state
    = (Ok records, st')
    /\ calls st' = calls init_state
                   ++ map pair_value [("acme", "widgets"); ("acme", "gadgets")]
    /\ List.length records = 2
    /\ Forall2 (fun p rec =>
                  py_getitem rec (VStr "Repo") = Ok (VStr (fst p +:+ "/" +:+ snd p)))
               [("acme", "widgets"); ("acme", "gadgets")] records.
Proof.
  apply (fetch_loop_once_per_pair acme_world [] acme_source init_state).
  intros p Hin st0. simpl in Hin.
  destruct Hin as [<- | [<- | []]]; reflexivity.
Defined.

(** The entries of the Owners list may be replaced by their first binding
    without changing what one turn of the outer loop does. *)
Lemma fetch_entry_first_key w h entry st :
  fetch_entry w h entry st = fetch_entry w h (first_key_only entry) st.
Proof.
  destruct entry as [| | | | |[|[k v] others]]; try reflexivity.
  assert (E : forall d, py_getitem (VDict ((k, v) :: d)) (VStr k) = Ok v).
  { intros d. cbn [py_getitem assoc]. now rewrite String.eqb_refl. }
  cbn [first_key_only]. unfold fetch_entry, bind, lift.
  change (py_first (VDict ((k, v) :: others))) with (Ok (VStr k)).
  change (py_first (VDict [(k, v)])) with (Ok (VStr k)).
  cbv beta iota. rewrite !E. reflexivity.
Qed.

(** C10: of every entry of the Owners list only the first key is
    consumed. On entries that carry further keys behind the first one, the
    invocations of the fetcher are an initial segment of the pairs of the
    first keys, whatever happens, and all of them when the loop returns;
    when the fetches of those pairs return, the loop returns their records
    in the state they leave, so the further keys are not fetched and raise
    nothing; and the loop behaves, on any Owners list, as on the entries cut
    down to their first keys. *)
Theorem first_key_only_is_fetched (w : World) (h : list (string * string))
    (entries : list OwnersEntry) (owners : list pyval)
    (more : list (string * pyval)) (st : state) :
  let run :=
    fetch_loop w h (Some (VDict (("Owners", VList (map entry_value entries)) :: more))) st in
  (exists invoked skipped,
      first_key_pairs entries = invoked ++ skipped
      /\ calls (snd run) = calls st ++ invoked
      /\ (is_ok (fst run) = true -> skipped = []))
  /\ (forall records st',
        fetched w h (first_key_pairs entries) st records st' ->
        run = (Ok records, st')
        /\ calls st' = calls st ++ first_key_pairs entries
        /\ List.length records = List.length (first_key_pairs entries))
  /\ fetch_loop w h (Some (VDict (("Owners", VList owners) :: more))) st
     = fetch_loop w h
         (Some (VDict (("Owners", VList (map first_key_only owners)) :: more))) st.
Proof.
  intros run. split; [|split].
  - unfold run. rewrite fetch_loop_entries.
    destruct (for_append_progress calls
                (fun p => get_repo_data w h (fst p) (snd p))
                (fun p => [p]) (first_key_pairs entries)) with (st := st)
      as (done & rest & E & P & O).
    + intros [o r] st0. apply get_repo_data_calls_progress.
    + exists done, rest. rewrite concat_singletons in E. now repeat split.
  - intros records st' Hf. unfold run. rewrite fetch_loop_entries.
    split; [now apply fetched_run|]. split; [now apply (fetched_calls w h _ _ records)|].
    clear -Hf. induction Hf; simpl; [reflexivity | now f_equal].
  - unfold fetch_loop.
    rewrite !lift_ok with (a := VList owners) by reflexivity.
    rewrite !lift_ok with (a := owners) by reflexivity.
    rewrite lift_ok with (a := VList (map first_key_only owners)) by reflexivity.
    rewrite lift_ok with (a := map first_key_only owners) by reflexivity.
    unfold bind. rewrite for_append_map.
    rewrite (for_append_ext _ _ owners (fetch_entry_first_key w h)).
    reflexivity.
Qed.

(** An Owners list whose one entry maps two owners,
    [{"acme": ["widgets"], "globex": ["gizmo"]}], in the sample world: the
    loop returns the record of [acme/widgets] alone, and [globex/gizmo] is
    never fetched. *)
Lemma first_key_only_acme :
  exists st',
    fetch_loop acme_world [] (Some (VDict [("Owners", VList [two_owner_entry])])) init_state
    = (Ok [record_value acme_record], st')
    /\ calls st' = [(VStr "acme", VStr "widgets")]
    /\ List.length [record_value acme_record] = 1.
Proof.
  exists (snd (get_repo_data acme_world [] (VStr "acme") (VStr "widgets") init_state)).
  apply (proj1 (proj2 (first_key_only_is_fetched acme_world []
                         [{| first_owner := "acme"; first_repos := [VStr "widgets"];
                             further_keys := [("globex", VList [VStr "gizmo"])] |}]
                         [] [] init_state))).
  apply fetched_cons
    with (st1 := snd (get_repo_data acme_world [] (VStr "acme") (VStr "widgets") init_state));
    [reflexivity | apply fetched_nil].
Defined.

(** An entry with two owners in the sample world: only the repository of
    the first owner is fetched. *)
Example two_owner_entry_calls :
  let run := fetch_entry acme_world [] two_owner_entry init_state in
  is_ok (fst run) = true /\ calls (snd run) = [(VStr "acme", VStr "widgets")].
Proof. split; reflexivity. Qed.

(** ** The owner of a listing request *)

Lemma append_cons (x : ascii) (a b : string) :
  String x a +:+ b = String x (a +:+ b).
Proof. reflexivity. Qed.

Lemma append_nil_l (b : string) : "" +:+ b = b.
Proof. reflexivity. Qed.

(** [simpl] leaves string concatenation alone; this unfolds it as well. *)
Ltac str_simpl := simpl; rewrite ?append_cons, ?append_nil_l; simpl.

Lemma append_assoc (a b c : string) : (a +:+ b) +:+ c = a +:+ (b +:+ c).
Proof.
  induction a as [|x a IH]; [reflexivity|].
  rewrite !append_cons. now rewrite IH.
Qed.

Lemma append_nil_r (a : string) : a +:+ "" = a.
Proof.
  induction a as [|x a IH]; [reflexivity|].
  rewrite append_cons. now rewrite IH.
Qed.

Lemma lstrip_spec p s :
  exists a, s = a +:+ lstrip p s
    /\ string_forall p a = true /\ first_char_is p (lstrip p s) = false.
Proof.
  induction s as [|c s (a & E & Ha & Hf)]; simpl.
  - exists "". repeat split.
  - destruct (p c) eqn:Hc.
    + exists (String c a). str_simpl. rewrite Hc, Ha. now rewrite <- E.
    + exists "". str_simpl. repeat split. exact Hc.
Qed.

Lemma rstrip_spec p s :
  exists b, s = rstrip p s +:+ b
    /\ string_forall p b = true /\ last_char_is p (rstrip p s) = false.
Proof.
  induction s as [|c s (b & E & Hb & Hl)]; simpl.
  - exists "". repeat split.
  - destruct (rstrip p s) as [|d r] eqn:Er.
    + rewrite append_nil_l in E. subst b. destruct (p c) eqn:Hc.
      * exists (String c s). str_simpl. now rewrite Hc, Hb.
      * exists s. str_simpl. now rewrite Hc.
    + exists b. rewrite append_cons. split; [now rewrite E at 1|].
      split; [exact Hb|]. exact Hl.
Qed.

Lemma rstrip_first_char p s :
  first_char_is p s = false -> first_char_is p (rstrip p s) = false.
Proof.
  destruct s as [|c s]; simpl; [reflexivity|]. intros Hc.
  destruct (rstrip p s); [now rewrite Hc | exact Hc].
Qed.

(** [strip] removes exactly the leading and the trailing characters of the
    given class. *)
Lemma strip_stripped_of p s : stripped_of p s (strip p s).
Proof.
  unfold stripped_of, strip.
  destruct (lstrip_spec p s) as (a & Ea & Ha & Hf).
  destruct (rstrip_spec p (lstrip p s)) as (b & Eb & Hb & Hl).
  exists a, b. split; [|split; [exact Ha | split; [exact Hb | split]]].
  - now rewrite <- Eb.
  - now apply rstrip_first_char.
  - exact Hl.
Qed.

(** C8, as the code behaves: the owner of the listing request is the name
    with its leading and trailing whitespace removed first and the leading
    and trailing slashes of the result removed after that, in one pass each;
    whitespace that the second pass uncovers stays. *)
Theorem owner_is_stripped_in_two_passes (name : string) :
  name <> "" ->
  exists trimmed owner,
    stripped_of is_whitespace name trimmed
    /\ stripped_of is_slash trimmed owner
    /\ (forall w h user st,
          requests (snd (resolve_repos w h None (Some name) user st))
          = requests st ++ [Request (listing_url "orgs" owner) h])
    /\ (forall w h st,
          requests (snd (resolve_repos w h None None (Some name) st))
          = requests st ++ [Request (listing_url "users" owner) h]).
Proof.
  intros Hname.
  exists (strip is_whitespace name), (clean_owner name).
  split; [apply strip_stripped_of|].
  split; [apply strip_stripped_of|].
  split.
  - intros w h user st.
    apply (resolve_repos_org_request w h None (Some name) user st eq_refl).
    now apply truthy_some.
  - intros w h st.
    apply (resolve_repos_user_request w h None None (Some name) st eq_refl eq_refl).
    now apply truthy_some.
Qed.

(** The name [" /acme/ "]: both passes have something to remove. *)
Lemma owner_acme_two_passes :
  exists trimmed owner,
    stripped_of is_whitespace " /acme/ " trimmed
    /\ stripped_of is_slash trimmed owner
    /\ (forall w h user st,
          requests (snd (resolve_repos w h None (Some " /acme/ ") user st))
          = requests st ++ [Request (listing_url "orgs" owner) h])
    /\ (forall w h st,
          requests (snd (resolve_repos w h None None (Some " /acme/ ") st))
          = requests st ++ [Request (listing_url "users" owner) h]).
Proof.
  apply (owner_is_stripped_in_two_passes " /acme/ "). discriminate.
Defined.

(** C8, as stated, fails for the name ["/ acme /"] of its own example: the
    listing request goes to the owner [" acme "], blanks included, while the
    name without its leading and trailing whitespace and slashes is
    ["acme"]. *)
Lemma owner_keeps_uncovered_whitespace :
  requests (snd (resolve_repos acme_world [] None (Some "/ acme /") None init_state))
  = [Request "https://api.github.com/orgs/ acme /repos" []]
  /\ strip_whitespace_and_slashes "/ acme /" = "acme"
  /\ clean_owner "/ acme /" <> strip_whitespace_and_slashes "/ acme /".
Proof. repeat split. discriminate. Qed.

(** ** The CSV file *)

Lemma string_forall_exists p q s :
  (forall c, p c = true -> q c = false) ->
  string_forall p s = true -> string_exists q s = false.
Proof.
  intros Hpq. induction s as [|c s IH]; simpl; [reflexivity|].
  intros [Hc Hs]%andb_true_iff. now rewrite (Hpq c Hc), IH.
Qed.

Lemma uint_digits (u : uint) :
  string_forall is_digit (NilEmpty.string_of_uint u) = true.
Proof. induction u; simpl; auto. Qed.

(** A decimal numeral is made of digits and, at most, a minus sign. *)
Lemma dec_chars (z : Z) : string_forall is_dec_char (dec z) = true.
Proof.
  assert (Hu : forall u, string_forall is_dec_char (NilZero.string_of_uint u) = true).
  { intros u.
    assert (H : string_forall is_dec_char (NilEmpty.string_of_uint u) = true).
    { pose proof (uint_digits u) as H. revert H.
      generalize (NilEmpty.string_of_uint u). intros s.
      induction s as [|c s IH]; simpl; [reflexivity|].
      intros [Hc Hs]%andb_true_iff. rewrite (IH Hs).
      unfold is_dec_char. now rewrite Hc. }
    destruct u; exact H. }
  unfold dec. destruct (Z.to_int z) as [u|u]; simpl; [apply Hu|].
  now rewrite Hu.
Qed.

Lemma dec_not_special (z : Z) : string_exists csv_special (dec z) = false.
Proof.
  apply (string_forall_exists is_dec_char); [|apply dec_chars].
  intros c. unfold is_dec_char, is_digit, csv_special.
  destruct c as [[|] [|] [|] [|] [|] [|] [|] [|]]; vm_compute; congruence.
Qed.

Lemma csv_field_dec (z : Z) : csv_field (dec z) = dec z.
Proof. unfold csv_field. now rewrite dec_not_special. Qed.

(** A row of at least two cells is its cells, joined by commas. *)
Lemma csv_line_join w v1 v2 row :
  csv_line w (v1 :: v2 :: row)
  = join "," (map (fun v => csv_field (csv_text w v)) (v1 :: v2 :: row)) +:+ CRLF.
Proof.
  unfold csv_line. cbn [map join].
  destruct (csv_field (csv_text w v1)); reflexivity.
Qed.

Lemma appends_ret path : appends path "" (ret tt).
Proof. intros st t Ht. exists st. now rewrite append_nil_r. Qed.

Lemma appends_bind path t1 t2 (m1 m2 : M unit) :
  appends path t1 m1 -> appends path t2 m2 ->
  appends path (t1 +:+ t2) (m1 ;;; m2).
Proof.
  intros H1 H2 st t Ht.
  destruct (H1 st t Ht) as (st1 & E1 & Ht1).
  destruct (H2 st1 _ Ht1) as (st2 & E2 & Ht2).
  exists st2. unfold bind. rewrite E1, E2. now rewrite <- append_assoc.
Qed.

Lemma appends_console_print path o : appends path "" (console_print o).
Proof. intros st t Ht. eexists. split; [reflexivity|]. now rewrite append_nil_r. Qed.

Lemma appends_file_write path text : appends path text (file_write path text).
Proof.
  intros st t Ht. eexists. split; [reflexivity|].
  simpl. rewrite lookup_insert_eq, Ht. reflexivity.
Qed.

Lemma appends_writeheader w path :
  appends path (csv_header +:+ CRLF) (writeheader w path).
Proof. apply (appends_file_write path (csv_header +:+ CRLF)). Qed.

(** One turn of the loop of lines 109-121 appends the row of the record. *)
Lemma appends_record_row w path r :
  appends path (csv_row_text r +:+ CRLF)
    (rowdict <- csv_rowdict (record_value r) ;; writerow w path rowdict).
Proof.
  intros st t Ht.
  destruct (appends_file_write path (csv_row_text r +:+ CRLF) st t Ht)
    as (st' & E & Ht').
  exists st'. split; [|exact Ht']. rewrite <- E.
  unfold csv_rowdict, writerow, bind, lift, ret. simpl.
  rewrite csv_line_join. cbn [map join csv_text py_str].
  rewrite !csv_field_dec. reflexivity.
Qed.

Lemma appends_rows w path rs :
  appends path (crlf_lines (map csv_row_text rs))
    (for_each (fun data => rowdict <- csv_rowdict data ;; writerow w path rowdict)
              (map record_value rs)).
Proof.
  induction rs as [|r rs IH]; simpl.
  - apply appends_ret.
  - rewrite <- append_assoc. apply appends_bind; [apply appends_record_row | exact IH].
Qed.

Lemma count_char_append c a b :
  count_char c (a +:+ b) = count_char c a + count_char c b.
Proof.
  induction a as [|x a IH]; [reflexivity|].
  rewrite append_cons. simpl. rewrite IH. lia.
Qed.

Lemma count_char_absent c p s :
  p c = true -> string_exists p s = false -> count_char c s = 0.
Proof.
  intros Hc. induction s as [|x s IH]; simpl; [reflexivity|].
  intros [Hx Hs]%orb_false_iff. rewrite (IH Hs).
  destruct (Ascii.eqb_spec c x) as [->|_]; [congruence | reflexivity].
Qed.

Lemma count_char_double_quotes c s :
  Ascii.eqb c dquote = false -> count_char c (double_quotes s) = count_char c s.
Proof.
  intros Hc. induction s as [|x s IH]; simpl; [reflexivity|].
  destruct (Ascii.eqb_spec x dquote) as [->|_]; simpl; rewrite ?Hc, IH; reflexivity.
Qed.

Lemma count_char_csv_field c s :
  Ascii.eqb c dquote = false -> count_char c (csv_field s) = count_char c s.
Proof.
  intros Hc. unfold csv_field. destruct (string_exists csv_special s); [|reflexivity].
  rewrite append_cons. cbn [count_char].
  rewrite Hc, count_char_append, count_char_double_quotes by assumption.
  cbn [count_char]. rewrite Hc. lia.
Qed.

Lemma count_char_dec c z : is_line_break c = true -> count_char c (dec z) = 0.
Proof.
  intros Hc. apply (count_char_absent c is_line_break); [exact Hc|].
  apply (string_forall_exists is_dec_char); [|apply dec_chars].
  intros x. unfold is_dec_char, is_digit, is_line_break.
  destruct x as [[|] [|] [|] [|] [|] [|] [|] [|]]; vm_compute; congruence.
Qed.

Lemma line_break_cases c : is_line_break c = true -> c = CR \/ c = LF.
Proof.
  unfold is_line_break. intros H.
  destruct (Ascii.eqb_spec c CR) as [E|_]; [now left|].
  destruct (Ascii.eqb_spec c LF) as [E|_]; [now right | discriminate].
Qed.

(** A row has the line breaks of its identifier and no others. *)
Lemma count_char_row c r :
  is_line_break c = true ->
  count_char c (csv_row_text r) = count_char c (rec_repo r).
Proof.
  intros Hc.
  assert (Hq : Ascii.eqb c dquote = false).
  { destruct (line_break_cases c Hc) as [E|E]; rewrite E; reflexivity. }
  assert (Hcomma : count_char c "," = 0).
  { destruct (line_break_cases c Hc) as [E|E]; rewrite E; reflexivity. }
  unfold csv_row_text.
  rewrite !count_char_append, !count_char_dec, Hcomma, count_char_csv_field
    by assumption.
  lia.
Qed.

Lemma count_char_crlf_lines c lines :
  count_char c CRLF = 1 ->
  Forall (fun l => count_char c l = 0) lines ->
  count_char c (crlf_lines lines) = List.length lines.
Proof.
  intros Hc. induction 1 as [|l lines Hl _ IH]; simpl; [reflexivity|].
  rewrite !count_char_append, Hl, Hc, IH. reflexivity.
Qed.

(** C7: with an output path of suffix [.csv] and a list of N records, the
    text written (to [data.csv]) is N+1 lines closed by the line terminator:
    the header, verbatim, then one row per record in order, the identifier
    as a CSV field and each counter in decimal. When no identifier holds a
    line break these are the only line breaks of the text. *)
Theorem csv_output_lines (w : World) (path : string)
    (rs : list RepoStatsRecord) (st : state) :
  Path_suffix path = ".csv" ->
  writable w "data.csv" = true ->
  let run := output_sink w (Some path) (map record_value rs) st in
  let lines := csv_header :: map csv_row_text rs in
  fst run = Ok tt
  /\ fs (snd run) !! "data.csv" = Some (crlf_lines lines)
  /\ List.length lines = S (List.length rs)
  /\ (Forall (fun r => string_exists is_line_break (rec_repo r) = false) rs ->
      count_char LF (crlf_lines lines) = S (List.length rs)
      /\ count_char CR (crlf_lines lines) = S (List.length rs)).
Proof.
  intros Hcsv Hw run lines.
  assert (Hlen : List.length lines = S (List.length rs)).
  { unfold lines. simpl. now rewrite length_map. }
  assert (Hrun : run = write_csv w (map record_value rs) st).
  { unfold run, output_sink. destruct path as [|c p]; [discriminate Hcsv|].
    cbn [truthy fstr_opt]. now rewrite Hcsv. }
  assert (Hbody : appends "data.csv" (crlf_lines lines)
            (writeheader w "data.csv" ;;;
             for_each (fun data => rowdict <- csv_rowdict data ;;
                                   writerow w "data.csv" rowdict)
                      (map record_value rs) ;;;
             console_line "CSV file created.")).
  { replace (crlf_lines lines)
      with ((csv_header +:+ CRLF) +:+ crlf_lines (map csv_row_text rs) +:+ "").
    - apply appends_bind; [apply appends_writeheader|].
      apply appends_bind; [apply appends_rows | apply appends_console_print].
    - unfold lines. simpl. now rewrite append_nil_r, append_assoc. }
  destruct (Hbody (State (requests st) (calls st) (<["data.csv" := ""]> (fs st))
                     (console st ++ [OutLine "Creating CSV"])) "")
    as (st' & E & Ht); [apply lookup_insert_eq|].
  assert (Hwrite : run = (Ok tt, st')).
  { rewrite Hrun, <- E. unfold write_csv, console_line.
    unfold bind at 1. cbn [console_print].
    unfold bind at 1. unfold open_w. cbn [requests calls fs console].
    now rewrite Hw. }
  rewrite Hwrite. cbn [fst snd].
  split; [reflexivity|]. split; [now rewrite Ht, append_nil_l|].
  split; [exact Hlen|].
  intros Hrepo.
  assert (Hlines : forall c, is_line_break c = true ->
            Forall (fun l => count_char c l = 0) lines).
  { intros c Hc. unfold lines. constructor.
    - destruct (line_break_cases c Hc) as [E0|E0]; rewrite E0; reflexivity.
    - apply Forall_map. eapply Forall_impl; [exact Hrepo|].
      intros r Hr. simpl. rewrite count_char_row by assumption.
      now apply (count_char_absent c is_line_break). }
  rewrite <- Hlen.
  split; apply count_char_crlf_lines; try reflexivity; now apply Hlines.
Qed.

(** The record of the specification's example, written for [-f out.csv]:
    two lines, in [data.csv]. *)
Lemma csv_output_lines_acme :
  let run := output_sink acme_world (Some "out.csv") [record_value acme_record]
               init_state in
  let text := crlf_lines [csv_header; "acme/widgets,3,10,10,5,4,50,20"] in
  fst run = Ok tt
  /\ fs (snd run) !! "data.csv" = Some text
  /\ count_char LF text = 2.
Proof.
  destruct (csv_output_lines acme_world "out.csv" [acme_record] init_state
              eq_refl eq_refl) as (Hok & Htext & _ & Hcount).
  split; [exact Hok|]. split; [exact Htext|].
  apply Hcount. repeat constructor.
Defined.

(** ** The JSON file *)

(** *** Strings *)

Lemma length_append (a b : string) :
  String.length (a +:+ b) = String.length a + String.length b.
Proof.
  induction a as [|c a IH]; [reflexivity|].
  rewrite append_cons. simpl. now rewrite IH.
Qed.

Lemma substring_all (s : string) : String.substring 0 (String.length s) s = s.
Proof. induction s as [|c s IH]; simpl; [reflexivity | now rewrite IH]. Qed.

Lemma skip_ws_start c s : is_json_ws c = false -> skip_ws (String c s) = String c s.
Proof. intros H. simpl. now rewrite H. Qed.

Lemma skip_ws_spaces n s : skip_ws (spaces n +:+ s) = skip_ws s.
Proof. induction n as [|n IH]; [reflexivity|]. simpl spaces. now rewrite append_cons. Qed.

Lemma skip_ws_newline_indent level s : skip_ws (newline_indent level +:+ s) = skip_ws s.
Proof. unfold newline_indent. rewrite append_cons. simpl. apply skip_ws_spaces. Qed.

Lemma newline_indent_length level : 1 <= String.length (newline_indent level).
Proof. unfold newline_indent. simpl. lia. Qed.

Lemma value_start_facts c :
  value_start c = true ->
  is_json_ws c = false /\ Ascii.eqb c "]" = false /\ Ascii.eqb c "}" = false
  /\ Ascii.eqb c "," = false /\ Ascii.eqb c ":" = false.
Proof.
  destruct c as [[|] [|] [|] [|] [|] [|] [|] [|]]; vm_compute; intros H;
    try discriminate H; repeat split.
Qed.

(** *** The escapes of a string *)

Lemma scanstring_unfold s : scanstring s = scanstring_step scanstring s.
Proof. destruct s; reflexivity. Qed.

Lemma scanstring_step_escape self c rest :
  scanstring_step self (json_escape c +:+ rest) = cons_char c (self rest).
Proof.
  destruct c as [[|] [|] [|] [|] [|] [|] [|] [|]]; vm_compute; reflexivity.
Qed.

Lemma scanstring_escape_char c rest :
  scanstring (json_escape c +:+ rest) = cons_char c (scanstring rest).
Proof. rewrite scanstring_unfold. apply scanstring_step_escape. Qed.

Lemma scanstring_escape_all s rest :
  scanstring (escape_all s +:+ String dquote rest) = Some (s, rest).
Proof.
  induction s as [|c s IH]; [reflexivity|].
  simpl escape_all. rewrite append_assoc, scanstring_escape_char, IH. reflexivity.
Qed.

(** What [json.dumps] writes for a string reads back as that string. *)
Lemma scan_once_encode_str fuel s rest :
  scan_once (S fuel) (encode_str s +:+ rest) = Some (VStr s, rest).
Proof.
  unfold encode_str. rewrite append_cons. cbn [scan_once].
  change (Ascii.eqb dquote dquote) with true. cbv iota.
  rewrite append_assoc, append_cons, append_nil_l, scanstring_escape_all. reflexivity.
Qed.

(** *** Integers *)

Lemma nzhead_not_D0 d u : nzhead d <> D0 u.
Proof. induction d; simpl; try discriminate. exact IHd. Qed.

(** The numeral of a positive number is not empty and does not begin with
    a zero. *)
Lemma to_uint_head p :
  match Pos.to_uint p with
  | Nil | D0 _ => False
  | _ => True
  end.
Proof.
  assert (E : Pos.to_uint p = unorm (Pos.to_uint p)).
  { rewrite <- DecimalPos.Unsigned.to_of, DecimalPos.Unsigned.of_to. reflexivity. }
  pose proof (DecimalPos.Unsigned.to_uint_nonzero p) as Hz.
  destruct (Pos.to_uint p) as [|u| | | | | | | | |]; try exact I.
  - discriminate E.
  - rewrite unorm_D0 in E. unfold unorm in E.
    destruct (nzhead u) eqn:En; try discriminate E.
    + injection E as E. subst u. now apply Hz.
    + now apply nzhead_not_D0 in En.
Qed.

Lemma span_digits_uint u rest :
  first_char_is is_digit rest = false ->
  span_digits (NilEmpty.string_of_uint u +:+ rest)
  = (NilEmpty.string_of_uint u, rest).
Proof.
  intros Hr. induction u; simpl NilEmpty.string_of_uint;
    rewrite ?append_cons; cbn [span_digits]; rewrite ?IHu; try reflexivity.
  rewrite append_nil_l. destruct rest as [|c rest]; [reflexivity|].
  simpl in Hr. simpl. now rewrite Hr.
Qed.

Lemma continues_number_digit rest :
  continues_number rest = false -> first_char_is is_digit rest = false.
Proof.
  destruct rest as [|c rest]; [reflexivity|]. simpl.
  now intros [[[H _]%orb_false_iff _]%orb_false_iff _]%orb_false_iff.
Qed.

(** The first character of the numeral of a positive number. *)
Lemma uint_string_head p :
  exists c s, NilEmpty.string_of_uint (Pos.to_uint p) = String c s
    /\ NilZero.string_of_uint (Pos.to_uint p) = String c s
    /\ is_digit c = true
    /\ Ascii.eqb c "0" = false /\ Ascii.eqb c "-" = false.
Proof.
  pose proof (to_uint_head p) as H.
  destruct (Pos.to_uint p); try contradiction; simpl; eauto 10.
Qed.

Lemma scan_digits_uint p rest :
  continues_number rest = false ->
  scan_digits (NilEmpty.string_of_uint (Pos.to_uint p) +:+ rest)
  = (NilEmpty.string_of_uint (Pos.to_uint p), rest).
Proof.
  intros Hr. destruct (uint_string_head p) as (c & s & E & _ & _ & H0 & _).
  rewrite <- span_digits_uint by now apply continues_number_digit.
  rewrite E, append_cons. unfold scan_digits. now rewrite H0.
Qed.

(** The decimal numeral of an integer reads back as that integer. *)
Lemma scan_int_dec z rest :
  continues_number rest = false -> scan_int (dec z +:+ rest) = Some (z, rest).
Proof.
  intros Hr. unfold dec. destruct z as [|p|p]; cbn [Z.to_int NilZero.string_of_int].
  - change (NilZero.string_of_uint zero) with "0".
    rewrite append_cons, append_nil_l. unfold scan_int, scan_digits.
    cbn -[continues_number]. now rewrite Hr.
  - destruct (uint_string_head p) as (c & s & E & E0 & Hd & H0 & Hm).
    rewrite E0, append_cons. unfold scan_int. rewrite Hm.
    rewrite <- append_cons, <- E, scan_digits_uint by assumption.
    rewrite E at 1. rewrite Hr.
    unfold int_of_digits. rewrite NilEmpty.usu.
    change (Pos (Pos.to_uint p)) with (Z.to_int (Z.pos p)).
    now rewrite DecimalZ.of_to.
  - destruct (uint_string_head p) as (c & s & E & E0 & Hd & H0 & Hm).
    rewrite E0, append_cons. unfold scan_int.
    change (Ascii.eqb "-" "-") with true. cbv iota.
    rewrite <- E, scan_digits_uint by assumption.
    rewrite E at 1. rewrite Hr.
    unfold int_of_digits. rewrite NilEmpty.usu.
    change (Neg (Pos.to_uint p)) with (Z.to_int (Z.neg p)).
    now rewrite DecimalZ.of_to.
Qed.

(** The first character of a decimal numeral. *)
Lemma dec_head z : exists c s, dec z = String c s /\ is_dec_char c = true.
Proof.
  unfold dec. destruct z as [|p|p]; cbn [Z.to_int NilZero.string_of_int].
  - exists "0"%char, "". split; reflexivity.
  - destruct (uint_string_head p) as (c & s & _ & E0 & Hd & _).
    exists c, s. split; [exact E0|]. unfold is_dec_char. now rewrite Hd.
  - eexists _, _. split; reflexivity.
Qed.

(** *** Dicts with distinct keys *)

Lemma existsb_eqb_In k l : existsb (String.eqb k) l = true <-> In k l.
Proof.
  rewrite existsb_exists. split.
  - intros (x & Hx & E). apply String.eqb_eq in E. now subst.
  - intros H. exists k. split; [exact H | apply String.eqb_refl].
Qed.

Lemma distinct_NoDup l : distinct l = true -> NoDup l.
Proof.
  induction l as [|x l IH]; simpl; [constructor|].
  intros [Hx Hl]%andb_true_iff. apply NoDup_cons_2.
  - intros Hin%list_elem_of_In%existsb_eqb_In. now rewrite Hin in Hx.
  - now apply IH.
Qed.

Lemma dict_set_fresh k v d :
  ~ In k (map fst d) -> dict_set k v d = d ++ [(k, v)].
Proof.
  induction d as [|[k' v'] d IH]; simpl; [reflexivity|]. intros Hk.
  destruct (String.eqb_spec k k') as [->|_]; [exfalso; now apply Hk; left|].
  rewrite IH; [reflexivity|]. intros H. apply Hk. now right.
Qed.

Lemma fold_dict_set d : forall acc,
  NoDup (map fst (acc ++ d)) ->
  fold_left (fun m kv => dict_set (fst kv) (snd kv) m) d acc = acc ++ d.
Proof.
  induction d as [|[k v] d IH]; intros acc Hnd; simpl.
  - now rewrite app_nil_r.
  - rewrite dict_set_fresh.
    + rewrite IH; rewrite <- app_assoc; [reflexivity | exact Hnd].
    + rewrite map_app in Hnd. simpl in Hnd.
      apply NoDup_app in Hnd as (_ & Hdisj & _).
      intros Hin%list_elem_of_In. apply (Hdisj k Hin). now left.
Qed.

(** Building a dict from the members of a dict gives the dict back. *)
Lemma dict_of_pairs_distinct d :
  distinct (map fst d) = true -> dict_of_pairs d = d.
Proof.
  intros H. unfold dict_of_pairs. rewrite fold_dict_set; [reflexivity|].
  simpl. now apply distinct_NoDup.
Qed.

(** *** The shape of the text *)

Lemma join_one sep x : join sep [x] = x.
Proof. reflexivity. Qed.

Lemma join_more sep x y l : join sep (x :: y :: l) = x +:+ sep +:+ join sep (y :: l).
Proof. reflexivity. Qed.

Lemma dumps_list level x l :
  dumps level (VList (x :: l))
  = "[" +:+ newline_indent (S level)
    +:+ join (item_sep (S level)) (map (dumps (S level)) (x :: l))
    +:+ newline_indent level +:+ "]".
Proof. reflexivity. Qed.

Lemma dumps_dict level kv d :
  dumps level (VDict (kv :: d))
  = "{" +:+ newline_indent (S level)
    +:+ join (item_sep (S level)) (map (member_text (S level)) (kv :: d))
    +:+ newline_indent level +:+ "}".
Proof. reflexivity. Qed.

(** Every value begins with a character that is neither whitespace nor
    punctuation. *)
Lemma dumps_head level v :
  exists c s, dumps level v = String c s /\ value_start c = true.
Proof.
  destruct v as [|[|]|z|s|[|x l]|[|kv d]];
    try (eexists _, _; split; reflexivity).
  destruct (dec_head z) as (c & s & E & Hc). exists c, s. split; [exact E|].
  unfold value_start. rewrite Hc. now rewrite !orb_true_r.
Qed.

Lemma items_head L x l rest :
  exists c s,
    join (item_sep L) (map (dumps L) (x :: l)) +:+ rest = String c s
    /\ value_start c = true.
Proof.
  destruct (dumps_head L x) as (c & s & E & Hc).
  destruct l as [|y l]; simpl map.
  - rewrite join_one, E, append_cons. eauto.
  - rewrite join_more, E, append_cons. eauto.
Qed.

Lemma members_head L kv d rest :
  exists text,
    join (item_sep L) (map (member_text L) (kv :: d)) +:+ rest = String dquote text.
Proof.
  destruct d as [|kv' d]; simpl map.
  - rewrite join_one. unfold member_text, encode_str. rewrite !append_cons. eauto.
  - rewrite join_more. unfold member_text, encode_str. rewrite !append_cons. eauto.
Qed.

Lemma dumps_length level v : 1 <= String.length (dumps level v).
Proof. destruct (dumps_head level v) as (c & s & E & _). rewrite E. simpl. lia. Qed.

Lemma continues_number_newline level s :
  continues_number (newline_indent level +:+ s) = false.
Proof. reflexivity. Qed.

Lemma continues_number_sep L s : continues_number (item_sep L +:+ s) = false.
Proof. reflexivity. Qed.

(** After the last item: the closing bracket or brace is next. *)
Lemma skip_ws_close level (c : ascii) rest :
  is_json_ws c = false ->
  skip_ws (newline_indent level +:+ String c rest) = String c rest.
Proof. intros H. rewrite skip_ws_newline_indent. now apply skip_ws_start. Qed.

(** *** One more unit of fuel *)

Lemma array_items_S f s :
  array_items (S f) s
  = match scan_once f s with
    | Some (v, r) =>
        match skip_ws r with
        | String d r1 =>
            if Ascii.eqb d "]" then Some ([v], r1)
            else if Ascii.eqb d "," then
              match array_items f (skip_ws r1) with
              | Some (items, rest) => Some (v :: items, rest)
              | None => None
              end
            else None
        | EmptyString => None
        end
    | None => None
    end.
Proof. reflexivity. Qed.

Lemma item_sep_length L : 1 <= String.length (item_sep L).
Proof. unfold item_sep. rewrite append_cons. simpl. lia. Qed.

Lemma item_sep_cons L s : item_sep L +:+ s = String "," (newline_indent L +:+ s).
Proof. unfold item_sep. now rewrite append_cons, append_nil_l, append_cons. Qed.

Lemma array_step f : scans_values f -> scans_arrays f -> scans_arrays (S f).
Proof.
  intros Hv Ha x l L level rest Hwf Hlen.
  cbn [forallb] in Hwf. apply andb_true_iff in Hwf as [Hx Hl].
  rewrite array_items_S. destruct l as [|y l].
  - cbn [map] in *. rewrite join_one in *.
    rewrite (Hv x L _ Hx (continues_number_newline _ _)) by lia.
    change ("]" +:+ rest) with (String "]" rest).
    rewrite skip_ws_close by reflexivity. reflexivity.
  - cbn [map] in Hlen |- *. rewrite join_more in Hlen |- *.
    rewrite !length_append in Hlen. pose proof (item_sep_length L) as Hsep.
    rewrite !append_assoc.
    rewrite (Hv x L _ Hx (continues_number_sep _ _)) by lia.
    rewrite item_sep_cons. rewrite skip_ws_start by reflexivity.
    change (Ascii.eqb "," "]") with false. change (Ascii.eqb "," ",") with true.
    cbv iota. rewrite skip_ws_newline_indent.
    destruct (items_head L y l (newline_indent level +:+ "]" +:+ rest))
      as (c & s & E & Hc).
    cbn [map] in E. rewrite E.
    rewrite skip_ws_start by (now apply value_start_facts). rewrite <- E.
    change (dumps L y :: map (dumps L) l) with (map (dumps L) (y :: l)).
    rewrite (Ha y l L level rest Hl) by (cbn [map]; lia).
    reflexivity.
Qed.

Lemma object_items_S f s :
  object_items (S f) s
  = match scanstring s with
    | Some (key, r) =>
        match skip_ws r with
        | String colon r1 =>
            if Ascii.eqb colon ":" then
              match scan_once f (skip_ws r1) with
              | Some (v, r2) =>
                  match skip_ws r2 with
                  | String d r3 =>
                      if Ascii.eqb d "}" then Some ([(key, v)], r3)
                      else if Ascii.eqb d "," then
                        match skip_ws r3 with
                        | String q r4 =>
                            if Ascii.eqb q dquote then
                              match object_items f r4 with
                              | Some (pairs, rest) => Some ((key, v) :: pairs, rest)
                              | None => None
                              end
                            else None
                        | EmptyString => None
                        end
                      else None
                  | EmptyString => None
                  end
              | None => None
              end
            else None
        | EmptyString => None
        end
    | None => None
    end.
Proof. reflexivity. Qed.

Lemma skip_ws_value L v s : skip_ws (dumps L v +:+ s) = dumps L v +:+ s.
Proof.
  destruct (dumps_head L v) as (c & t & E & Hc). rewrite E, append_cons.
  apply skip_ws_start. now apply value_start_facts.
Qed.

(** A member, spelled out: quote, escaped key, quote, colon, blank, value. *)
Lemma member_text_cons L k x s :
  member_text L (k, x) +:+ s
  = String dquote
      (escape_all k +:+ String dquote (String ":" (String " " (dumps L x +:+ s)))).
Proof.
  unfold member_text, encode_str. cbn [fst snd].
  rewrite !append_assoc, !append_cons, !append_assoc, !append_cons, !append_nil_l.
  reflexivity.
Qed.

Lemma member_text_length L k x :
  String.length (dumps L x) < String.length (member_text L (k, x)).
Proof.
  unfold member_text, encode_str. cbn [fst snd].
  rewrite !length_append. simpl. lia.
Qed.

Lemma String_tail_inj c a b : String c a = String c b -> a = b.
Proof. now intros [= ->]. Qed.

Lemma skip_ws_blank s : skip_ws (String " " s) = skip_ws s.
Proof. reflexivity. Qed.

Lemma object_step f : scans_values f -> scans_objects f -> scans_objects (S f).
Proof.
  intros Hv Ho [k x] d L level rest text Hwf Hlen Etext.
  cbn [forallb snd] in Hwf. apply andb_true_iff in Hwf as [Hx Hd].
  pose proof (member_text_length L k x) as Hm.
  rewrite object_items_S. destruct d as [|kv' d].
  - cbn [map] in Hlen, Etext. rewrite join_one in Hlen, Etext.
    rewrite member_text_cons in Etext. apply String_tail_inj in Etext. subst text.
    rewrite scanstring_escape_all.
    rewrite skip_ws_start by reflexivity.
    change (Ascii.eqb ":" ":") with true. cbv match.
    rewrite skip_ws_blank, skip_ws_value.
    rewrite (Hv x L _ Hx (continues_number_newline _ _)) by lia.
    change ("}" +:+ rest) with (String "}" rest).
    rewrite skip_ws_close by reflexivity. reflexivity.
  - cbn [map] in Hlen, Etext. rewrite join_more in Hlen, Etext.
    rewrite !length_append in Hlen. pose proof (item_sep_length L) as Hsep.
    rewrite !append_assoc, member_text_cons in Etext. apply String_tail_inj in Etext. subst text.
    rewrite scanstring_escape_all.
    rewrite skip_ws_start by reflexivity.
    change (Ascii.eqb ":" ":") with true. cbv match.
    rewrite skip_ws_blank, skip_ws_value.
    rewrite (Hv x L _ Hx (continues_number_sep _ _)) by lia.
    rewrite item_sep_cons. rewrite skip_ws_start by reflexivity.
    change (Ascii.eqb "," "}") with false. change (Ascii.eqb "," ",") with true.
    cbv match. rewrite skip_ws_newline_indent.
    destruct (members_head L kv' d (newline_indent level +:+ "}" +:+ rest))
      as (text' & E).
    cbn [map] in E. rewrite E.
    rewrite skip_ws_start by reflexivity.
    change (Ascii.eqb dquote dquote) with true. cbv match.
    rewrite (Ho kv' d L level rest text' Hd); [reflexivity | cbn [map]; lia |].
    symmetry. exact E.
Qed.

Lemma prefix_append p rest : String.prefix p (p +:+ rest) = true.
Proof.
  induction p as [|c p IH]; [now destruct rest|].
  rewrite append_cons. simpl. destruct (ascii_dec c c); [exact IH | congruence].
Qed.

Lemma substring_append p n rest :
  String.substring (String.length p) n (p +:+ rest) = String.substring 0 n rest.
Proof. induction p as [|c p IH]; [reflexivity|]. rewrite append_cons. exact IH. Qed.

Lemma starts_with_append p rest : starts_with p (p +:+ rest) = Some rest.
Proof.
  unfold starts_with. rewrite prefix_append, substring_append, length_append.
  replace (String.length p + String.length rest - String.length p)
    with (String.length rest) by lia.
  now rewrite substring_all.
Qed.

Lemma starts_with_mismatch a p b s : a <> b -> starts_with (String a p) (String b s) = None.
Proof.
  intros Hab. unfold starts_with. simpl String.prefix.
  destruct (ascii_dec a b); [contradiction | reflexivity].
Qed.

(** A value that is neither a string, a dict nor a list is a keyword or a
    number. *)
Lemma scan_once_other f c r :
  Ascii.eqb c dquote = false -> Ascii.eqb c "{" = false -> Ascii.eqb c "[" = false ->
  scan_once (S f) (String c r)
  = match starts_with "null" (String c r), starts_with "true" (String c r),
          starts_with "false" (String c r) with
    | Some rest, _, _ => Some (VNone, rest)
    | _, Some rest, _ => Some (VBool true, rest)
    | _, _, Some rest => Some (VBool false, rest)
    | None, None, None =>
        match scan_int (String c r) with
        | Some (z, rest) => Some (VInt z, rest)
        | None => None
        end
    end.
Proof. intros H1 H2 H3. cbn [scan_once]. now rewrite H1, H2, H3. Qed.

Lemma scan_once_bracket f r :
  scan_once (S f) (String "[" r)
  = match skip_ws r with
    | String q rest =>
        if Ascii.eqb q "]" then Some (VList [], rest)
        else
          match array_items f (String q rest) with
          | Some (items, rest') => Some (VList items, rest')
          | None => None
          end
    | EmptyString => None
    end.
Proof. reflexivity. Qed.

Lemma scan_once_brace f r :
  scan_once (S f) (String "{" r)
  = match skip_ws r with
    | String q rest =>
        if Ascii.eqb q "}" then Some (VDict [], rest)
        else if Ascii.eqb q dquote then
          match object_items f rest with
          | Some (pairs, rest') => Some (VDict (dict_of_pairs pairs), rest')
          | None => None
          end
        else None
    | EmptyString => None
    end.
Proof. reflexivity. Qed.

Lemma dec_char_facts c :
  is_dec_char c = true ->
  Ascii.eqb c dquote = false /\ Ascii.eqb c "{" = false /\ Ascii.eqb c "[" = false
  /\ "n"%char <> c /\ "t"%char <> c /\ "f"%char <> c.
Proof.
  destruct c as [[|] [|] [|] [|] [|] [|] [|] [|]]; vm_compute; intros H;
    try discriminate H; repeat split; discriminate.
Qed.

Lemma scan_once_null f rest : scan_once (S f) ("null" +:+ rest) = Some (VNone, rest).
Proof.
  change ("null" +:+ rest) with (String "n" ("ull" +:+ rest)).
  rewrite scan_once_other by reflexivity.
  change (String "n" ("ull" +:+ rest)) with ("null" +:+ rest).
  now rewrite starts_with_append.
Qed.

Lemma scan_once_true f rest :
  scan_once (S f) ("true" +:+ rest) = Some (VBool true, rest).
Proof.
  change ("true" +:+ rest) with (String "t" ("rue" +:+ rest)).
  rewrite scan_once_other by reflexivity.
  rewrite (starts_with_mismatch "n") by discriminate.
  change (String "t" ("rue" +:+ rest)) with ("true" +:+ rest).
  now rewrite starts_with_append.
Qed.

Lemma scan_once_false f rest :
  scan_once (S f) ("false" +:+ rest) = Some (VBool false, rest).
Proof.
  change ("false" +:+ rest) with (String "f" ("alse" +:+ rest)).
  rewrite scan_once_other by reflexivity.
  rewrite (starts_with_mismatch "n"), (starts_with_mismatch "t") by discriminate.
  change (String "f" ("alse" +:+ rest)) with ("false" +:+ rest).
  now rewrite starts_with_append.
Qed.

Lemma scan_once_dec f z rest :
  continues_number rest = false ->
  scan_once (S f) (dec z +:+ rest) = Some (VInt z, rest).
Proof.
  intros Hr. destruct (dec_head z) as (c & s & E & Hc).
  destruct (dec_char_facts c Hc) as (H1 & H2 & H3 & Hn & Ht & Hf).
  rewrite E, append_cons, scan_once_other by assumption.
  rewrite (starts_with_mismatch "n"), (starts_with_mismatch "t"),
    (starts_with_mismatch "f") by assumption.
  rewrite <- append_cons, <- E, scan_int_dec by assumption. reflexivity.
Qed.

Lemma value_step f : scans_arrays f -> scans_objects f -> scans_values (S f).
Proof.
  intros Ha Ho v level rest Hwf Hr Hlen.
  destruct v as [|[|]|z|s|[|x l]|[|kv d]].
  - apply scan_once_null.
  - apply scan_once_true.
  - apply scan_once_false.
  - now apply scan_once_dec.
  - apply scan_once_encode_str.
  - reflexivity.
  - cbn [well_formed] in Hwf.
    rewrite dumps_list in Hlen |- *. rewrite !length_append in Hlen.
    pose proof (newline_indent_length (S level)) as Hn1.
    pose proof (newline_indent_length level) as Hn2.
    rewrite !append_assoc, append_cons, append_nil_l, scan_once_bracket.
    rewrite skip_ws_newline_indent.
    destruct (items_head (S level) x l (newline_indent level +:+ "]" +:+ rest))
      as (c & s & E & Hc).
    rewrite E. rewrite skip_ws_start by (now apply value_start_facts).
    replace (Ascii.eqb c "]") with false by (symmetry; now apply value_start_facts).
    rewrite <- E. rewrite (Ha x l (S level) level rest Hwf) by lia.
    reflexivity.
  - reflexivity.
  - cbn [well_formed] in Hwf. apply andb_true_iff in Hwf as [Hkeys Hwf].
    rewrite dumps_dict in Hlen |- *. rewrite !length_append in Hlen.
    pose proof (newline_indent_length (S level)) as Hn1.
    pose proof (newline_indent_length level) as Hn2.
    rewrite !append_assoc, append_cons, append_nil_l, scan_once_brace.
    rewrite skip_ws_newline_indent.
    destruct (members_head (S level) kv d (newline_indent level +:+ "}" +:+ rest))
      as (text & E).
    rewrite E. rewrite skip_ws_start by reflexivity.
    change (Ascii.eqb dquote "}") with false.
    change (Ascii.eqb dquote dquote) with true. cbv match.
    rewrite (Ho kv d (S level) level rest text Hwf); [|lia|now symmetry].
    now rewrite dict_of_pairs_distinct.
Qed.

(** With enough fuel, values, arrays and objects all read back. *)
Lemma scans_all fuel : scans_values fuel /\ scans_arrays fuel /\ scans_objects fuel.
Proof.
  induction fuel as [|f (Hv & Ha & Ho)].
  - split; [|split].
    + intros v level rest _ _ Hlen. pose proof (dumps_length level v). lia.
    + intros x l L level rest _ Hlen. lia.
    + intros kv d L level rest text _ Hlen. lia.
  - split; [|split].
    + now apply value_step.
    + now apply array_step.
    + now apply object_step.
Qed.

(** Round trip of the encoder and the decoder: parsing what [json.dumps]
    writes for a value gives the value. *)
Lemma json_loads_dumps v : well_formed v = true -> json_loads (json_dumps v) = Some v.
Proof.
  intros Hwf. unfold json_loads, json_dumps.
  destruct (dumps_head 0 v) as (c & s & E & Hc).
  assert (Hskip : skip_ws (dumps 0 v) = dumps 0 v).
  { rewrite E. apply skip_ws_start. now apply value_start_facts. }
  rewrite Hskip. rewrite <- (append_nil_r (dumps 0 v)) at 2.
  destruct (scans_all (S (String.length (dumps 0 v)))) as (Hv & _ & _).
  rewrite (Hv v 0 "" Hwf eq_refl) by lia. reflexivity.
Qed.

(** The dict of a RepoStatsRecord is a well-formed value. *)
Lemma record_value_well_formed r : well_formed (record_value r) = true.
Proof. reflexivity. Qed.

(** The JSON branch writes the document and the document reads back. *)
Lemma write_json_reads_back w path data st :
  writable w (Path_str path) = true ->
  all_well_formed data ->
  let doc := VDict [("Data", VList data)] in
  exists st',
    write_json w path data st = (Ok tt, st')
    /\ fs st' !! Path_str path = Some (json_dumps doc)
    /\ json_loads (json_dumps doc) = Some doc.
Proof.
  intros Hw Hwf doc.
  unfold write_json, console_line, bind, console_print, open_w, file_write.
  cbn [requests calls fs console]. rewrite Hw.
  eexists. split; [reflexivity|]. cbn [fs]. split.
  - rewrite !lookup_insert_eq. reflexivity.
  - apply json_loads_dumps. unfold doc.
    cbn [well_formed map fst distinct existsb forallb snd].
    unfold all_well_formed in Hwf. now rewrite Hwf.
Qed.

Lemma output_sink_json w path data :
  Path_suffix path = ".json" ->
  output_sink w (Some path) data = write_json w path data.
Proof.
  intros Hjson. unfold output_sink. destruct path as [|c p]; [discriminate Hjson|].
  cbn [truthy fstr_opt]. now rewrite Hjson.
Qed.

(** C6: with an output path of suffix [.json] and a list of N records (any
    well-formed values), the run writes a file whose text parses back to
    the document [{"Data": [...]}] holding exactly those N records, equal
    field by field and in the same order. *)
Theorem json_output_round_trip (w : World) (path : string)
    (data : list pyval) (st : state) :
  Path_suffix path = ".json" ->
  writable w (Path_str path) = true ->
  forallb well_formed data = true ->
  let run := output_sink w (Some path) data st in
  fst run = Ok tt
  /\ exists text items,
       fs (snd run) !! Path_str path = Some text
       /\ json_loads text = Some (VDict [("Data", VList items)])
       /\ items = data
       /\ List.length items = List.length data.
Proof.
  intros Hjson Hw Hwf run.
  destruct (write_json_reads_back w path data st Hw Hwf) as (st' & E & Hfile & Hload).
  unfold run. rewrite output_sink_json, E by assumption. cbn [fst snd].
  split; [reflexivity|].
  exists (json_dumps (VDict [("Data", VList data)])), data.
  repeat split; assumption.
Qed.

(** The record of the specification's example, written for
    [-f stats.json] and read back. *)
Lemma json_output_round_trip_acme :
  let run := output_sink acme_world (Some "stats.json") [record_value acme_record]
               init_state in
  fst run = Ok tt
  /\ exists text items,
       fs (snd run) !! Path_str "stats.json" = Some text
       /\ json_loads text = Some (VDict [("Data", VList items)])
       /\ items = [record_value acme_record]
       /\ List.length items = 1.
Proof.
  apply (json_output_round_trip acme_world "stats.json" [record_value acme_record]
           init_state); reflexivity.
Defined.

(** ** From the service to the file *)

Lemma returns_ret {A} (P : A -> Prop) (a : A) : P a -> returns P (ret a).
Proof. intros H st a' st' [= <- _]. exact H. Qed.

Lemma returns_lift {A} (P : A -> Prop) (r : result A) :
  (forall a, r = Ok a -> P a) -> returns P (lift r).
Proof. intros H st a st' [= E _]. now apply H. Qed.

Lemma returns_bind {A B} (P : A -> Prop) (Q : B -> Prop) (m : M A) (k : A -> M B) :
  returns P m -> (forall a, P a -> returns Q (k a)) -> returns Q (bind m k).
Proof.
  intros Hm Hk st b st'. unfold bind.
  destruct (m st) as [[a|e] st1] eqn:E; [|discriminate].
  apply (Hk a (Hm _ _ _ E)).
Qed.

Lemma returns_for_append {A B} (P : B -> Prop) (body : A -> M B) (xs : list A) :
  (forall x, returns P (body x)) -> returns (Forall P) (for_append body xs).
Proof.
  intros Hb. induction xs as [|x xs IH]; simpl.
  - apply returns_ret. constructor.
  - eapply returns_bind; [apply Hb | intros y Hy].
    eapply returns_bind; [apply IH | intros ys Hys].
    apply returns_ret. now constructor.
Qed.

Lemma py_index_In {A} (l : list A) i x : py_index l i = Ok x -> In x l.
Proof.
  unfold py_index. destruct (_ <? 0)%Z; [discriminate|].
  destruct (nth_error l _) eqn:E; [|discriminate].
  intros [= <-]. eapply nth_error_In. exact E.
Qed.

Lemma assoc_well_formed k d v :
  forallb (fun kv => well_formed (snd kv)) d = true ->
  assoc k d = Some v -> well_formed v = true.
Proof.
  induction d as [|[k' v'] d IH]; simpl; [discriminate|].
  intros [Hv Hd]%andb_true_iff. destruct (String.eqb k k').
  - now intros [= <-].
  - now apply IH.
Qed.

(** Subscripting a well-formed value gives a well-formed value. *)
Lemma py_getitem_well_formed obj key v :
  well_formed obj = true -> py_getitem obj key = Ok v -> well_formed v = true.
Proof.
  intros Hwf. destruct obj as [| | |s|l|d]; try discriminate.
  - destruct key; try discriminate; simpl;
      destruct (py_index _ _); try discriminate; now intros [= <-].
  - assert (Hin : forall i, py_index l i = Ok v -> well_formed v = true).
    { intros i Hi%py_index_In. cbn [well_formed] in Hwf.
      rewrite forallb_forall in Hwf. now apply Hwf. }
    destruct key; try discriminate; simpl; apply Hin.
  - cbn [well_formed] in Hwf. apply andb_true_iff in Hwf as [_ Hd].
    destruct key; try discriminate. simpl.
    destruct (assoc s d) eqn:E; [|discriminate].
    intros [= <-]. now apply (assoc_well_formed s d).
Qed.

Lemma http_get_json_returns w url h :
  well_formed_world w ->
  returns (fun v => well_formed v = true) (http_get_json w url h).
Proof. intros Hw st v st' [= E _]. now apply (Hw _ _ _ E). Qed.

(** In a well-formed world the fetcher returns well-formed records. *)
Lemma get_repo_data_returns w h o r :
  well_formed_world w ->
  returns (fun v => well_formed v = true) (get_repo_data w h o r).
Proof.
  intros Hw. unfold get_repo_data.
  eapply returns_bind; [intros ? ? ? _; exact I | intros _ _].
  eapply returns_bind; [now apply http_get_json_returns | intros detail Hd].
  eapply returns_bind; [now apply http_get_json_returns | intros views Hv].
  eapply returns_bind; [now apply http_get_json_returns | intros clones Hc].
  repeat (eapply returns_bind;
          [apply returns_lift; intros ? E;
           eapply py_getitem_well_formed; [|exact E]; assumption
          | intros ? ?]).
  apply returns_ret. cbv beta in *.
  cbn [well_formed map fst distinct existsb forallb snd].
  repeat match goal with H : well_formed _ = true |- _ => rewrite H; clear H end.
  reflexivity.
Qed.

Lemma Forall_well_formed data : Forall (fun v => well_formed v = true) data ->
  all_well_formed data.
Proof.
  unfold all_well_formed. induction 1 as [|v data Hv _ IH]; simpl; [reflexivity|].
  now rewrite Hv, IH.
Qed.

Lemma fetch_loop_returns w h rd :
  well_formed_world w -> returns all_well_formed (fetch_loop w h rd).
Proof.
  intros Hw. unfold fetch_loop. destruct rd as [rd|]; [|intros ? ? ? [=]].
  eapply returns_bind; [intros ? ? ? _; exact I | intros owners_v _].
  eapply returns_bind; [intros ? ? ? _; exact I | intros owners _].
  eapply returns_bind.
  - apply (returns_for_append (Forall (fun v => well_formed v = true))).
    intros entry. unfold fetch_entry.
    eapply returns_bind; [intros ? ? ? _; exact I | intros key _].
    eapply returns_bind; [intros ? ? ? _; exact I | intros repo_list _].
    eapply returns_bind; [intros ? ? ? _; exact I | intros repos _].
    apply returns_for_append. intros repo. now apply get_repo_data_returns.
  - intros chunks Hchunks. apply returns_ret. apply Forall_well_formed.
    induction Hchunks as [|c chunks Hc _ IH]; simpl; [constructor|].
    apply Forall_app. now split.
Qed.

(** X20: the records gathered from a well-formed world, written with
    [-f <path>.json], read back from the file as they were in memory. *)
Corollary main_json_round_trip (w : World)
    (repos org user auth_token : option string) (path : string)
    (st st1 : state) (data : list pyval) :
  well_formed_world w ->
  Path_suffix path = ".json" ->
  writable w (Path_str path) = true ->
  gather w repos org user auth_token st = (Ok data, st1) ->
  exists text st2,
    main w repos org user (Some path) auth_token st = (Ok tt, st2)
    /\ fs st2 !! Path_str path = Some text
    /\ json_loads text = Some (VDict [("Data", VList data)]).
Proof.
  intros Hworld Hjson Hw Hg.
  assert (Hwf : all_well_formed data).
  { unfold gather in Hg. unfold bind in Hg.
    destruct (resolve_repos _ _ _ _ _ st) as [[rd|e] st0]; [|discriminate].
    apply (fetch_loop_returns w _ rd Hworld _ _ _ Hg). }
  destruct (write_json_reads_back w path data st1 Hw Hwf) as (st2 & E & Hfile & Hload).
  exists (json_dumps (VDict [("Data", VList data)])), st2.
  rewrite main_split. unfold bind. rewrite Hg, output_sink_json by assumption.
  now rewrite E.
Qed.

(** * Further properties *)

(** ** More frames *)

#[local] Instance same_console_preorder : PreOrder same_console.
Proof.
  split; [intros s; reflexivity|].
  intros s1 s2 s3 H1 H2; unfold same_console in *; congruence.
Qed.

Lemma http_get_json_same_console w url h : steps same_console (http_get_json w url h).
Proof. intros st. reflexivity. Qed.

Lemma log_call_same_console o r : steps same_console (log_call o r).
Proof. intros st. reflexivity. Qed.

#[local] Hint Resolve http_get_json_same_console log_call_same_console : frames.

Lemma gather_same_console w repos org user auth_token :
  steps same_console (gather w repos org user auth_token).
Proof.
  unfold gather, resolve_repos, parse_repos_list_from_yaml, fetch_loop,
    fetch_entry, get_repo_data.
  destruct (truthy repos); [|destruct (truthy org); [|destruct (truthy user)]];
    (apply steps_bind; [frame | intros [rd|]; frame]).
Qed.

(** ** Tokens *)

(** X1: a non-empty [--auth-token] is the token of every request of the
    run, whatever the environment holds. *)
Theorem explicit_token_is_sent (w : World)
    (repos org user output_file : option string) (token : string) (st : state) :
  token <> "" ->
  resolve_headers w (Some token) = [("Authorization", "token " +:+ token)]
  /\ sends [("Authorization", "token " +:+ token)] st
       (snd (main w repos org user output_file (Some token) st)).
Proof.
  intros Ht.
  assert (E : resolve_headers w (Some token) = [("Authorization", "token " +:+ token)]).
  { unfold resolve_headers. now rewrite truthy_some. }
  split; [exact E|]. rewrite <- E. apply main_sends.
Qed.

(** [-t abc] in a world whose [GH_TOKEN] is set to something else. *)
Lemma explicit_token_overrides_environment :
  resolve_headers not_found_world (Some "abc") = [("Authorization", "token abc")]
  /\ sends [("Authorization", "token abc")] init_state
       (snd (main not_found_world None (Some "acme") None None (Some "abc") init_state)).
Proof.
  apply (explicit_token_is_sent not_found_world None (Some "acme") None None "abc"
           init_state).
  discriminate.
Defined.

(** X2: without [--auth-token], or with an empty one, the token of every
    request of the run is the value of [GH_TOKEN]. *)
Theorem environment_token_is_sent (w : World)
    (repos org user output_file auth_token : option string) (token : string)
    (st : state) :
  truthy auth_token = false ->
  getenv w "GH_TOKEN" = Some token ->
  resolve_headers w auth_token = [("Authorization", "token " +:+ token)]
  /\ sends [("Authorization", "token " +:+ token)] st
       (snd (main w repos org user output_file auth_token st)).
Proof.
  intros Ha Henv.
  assert (E : resolve_headers w auth_token = [("Authorization", "token " +:+ token)]).
  { unfold resolve_headers. now rewrite Ha, Henv. }
  split; [exact E|]. rewrite <- E. apply main_sends.
Qed.

(** An empty [-t] falls back to the environment. *)
Lemma environment_token_for_empty_option :
  resolve_headers not_found_world (Some "") = [("Authorization", "token s3cret")]
  /\ sends [("Authorization", "token s3cret")] init_state
       (snd (main not_found_world None (Some "acme") None None (Some "") init_state)).
Proof.
  apply (environment_token_is_sent not_found_world None (Some "acme") None None
           (Some "") "s3cret" init_state); reflexivity.
Defined.

(** ** Runs that end before the fetch loop *)

(** X3: with none of [--repos], [--org], [--user] in effect the run raises
    [UnboundLocalError] for [repos_dict] (line 81) in the state it started
    in: no request, no file, nothing printed. *)
Theorem no_selector_is_unbound (w : World)
    (repos org user output_file auth_token : option string) (st : state) :
  truthy repos = false -> truthy org = false -> truthy user = false ->
  main w repos org user output_file auth_token st
  = (Raise (UnboundLocalError "repos_dict"), st).
Proof.
  intros Hr Ho Hu. unfold main, resolve_repos. now rewrite Hr, Ho, Hu.
Qed.

Lemma no_selector_acme :
  main acme_world None None None (Some "out.json") None init_state
  = (Raise (UnboundLocalError "repos_dict"), init_state).
Proof.
  apply (no_selector_is_unbound acme_world None None None (Some "out.json") None
           init_state); reflexivity.
Defined.

(** X5: with [--repos], an exception of the YAML loader is the exception of
    the run, raised in the state the run started in: [--org] and [--user]
    are not consulted and no request is issued. *)
Theorem yaml_error_aborts (w : World)
    (repos org user output_file auth_token : option string) (e : exn) (st : state) :
  truthy repos = true ->
  safe_load w (fstr_opt repos) = Raise e ->
  main w repos org user output_file auth_token st = (Raise e, st).
Proof.
  intros Hr He. unfold main, resolve_repos, parse_repos_list_from_yaml.
  rewrite Hr. unfold bind, lift. now rewrite He.
Qed.

Lemma yaml_error_aborts_example :
  main not_found_world (Some "repos.yml") (Some "acme") None None None init_state
  = (Raise (YAMLError "repos.yml"), init_state).
Proof.
  apply (yaml_error_aborts not_found_world (Some "repos.yml") (Some "acme") None
           None None (YAMLError "repos.yml") init_state); reflexivity.
Defined.

(** X6: a configuration document that is a mapping without the key
    [Owners] ends the run with [KeyError('Owners')] before any request. *)
Theorem config_without_owners (w : World)
    (repos org user output_file auth_token : option string)
    (d : list (string * pyval)) (st : state) :
  truthy repos = true ->
  safe_load w (fstr_opt repos) = Ok (VDict d) ->
  assoc "Owners" d = None ->
  main w repos org user output_file auth_token st
  = (Raise (KeyError (VStr "Owners")), st).
Proof.
  intros Hr Hd Ha. unfold main, resolve_repos, parse_repos_list_from_yaml.
  rewrite Hr. unfold bind, lift, ret, fetch_loop. rewrite Hd.
  unfold bind, lift. cbn [py_getitem]. now rewrite Ha.
Qed.

Lemma config_without_owners_example :
  main misspelt_world (Some "repos.yml") None None None None init_state
  = (Raise (KeyError (VStr "Owners")), init_state).
Proof.
  apply (config_without_owners misspelt_world (Some "repos.yml") None None None None
           [("owners", VList [VDict [("acme", VList [VStr "widgets"])]])] init_state);
    reflexivity.
Defined.

(** X4: when the listing or a fetch raises, the run raises the same
    exception and leaves no output: the file system and the console are
    those the run started with, whatever [--output-file] says. *)
Theorem failure_leaves_no_output (w : World)
    (repos org user output_file auth_token : option string) (e : exn) (st : state) :
  fst (gather w repos org user auth_token st) = Raise e ->
  let final := snd (main w repos org user output_file auth_token st) in
  fst (main w repos org user output_file auth_token st) = Raise e
  /\ fs final = fs st
  /\ console final = console st.
Proof.
  intros Hg final. unfold final. rewrite main_split. unfold bind.
  pose proof (gather_same_fs w repos org user auth_token st) as Hfs.
  pose proof (gather_same_console w repos org user auth_token st) as Hco.
  destruct (gather w repos org user auth_token st) as [[data|e'] st1];
    simpl in *; [discriminate|].
  injection Hg as ->. repeat split; assumption.
Qed.

(** [--org acme -f out.csv] against a service that answers 404: the run
    raises and [data.csv] is not created. *)
Lemma failure_leaves_no_output_example :
  let final := snd (main not_found_world None (Some "acme") None (Some "out.csv") None
                      init_state) in
  fst (main not_found_world None (Some "acme") None (Some "out.csv") None init_state)
  = Raise TypeError
  /\ fs final = fs init_state
  /\ console final = console init_state.
Proof.
  apply (failure_leaves_no_output not_found_world None (Some "acme") None
           (Some "out.csv") None TypeError init_state).
  reflexivity.
Defined.

(** ** The listing of an owner *)

(** X7: when the listing of the organisation (or, without [--org], of the
    user) is a list whose items all have a [name], the resolved source has
    one entry, the cleaned owner, with those names in the order of the
    service; one request has been issued. *)
Theorem listing_resolves_in_order (w : World) (h : list (string * string))
    (repos org user : option string) (items names : list pyval) (st : state) :
  truthy repos = false ->
  Forall2 (fun item name => py_getitem item (VStr "name") = Ok name) items names ->
  (truthy org = true ->
   let owner := clean_owner (fstr_opt org) in
   let rq := Request (listing_url "orgs" owner) h in
   respond w (requests st) rq = Ok (VList items) ->
   resolve_repos w h repos org user st
   = (Ok (Some (VDict [("Owners", VList [VDict [(owner, VList names)]])])),
      State (requests st ++ [rq]) (calls st) (fs st) (console st)))
  /\ (truthy org = false -> truthy user = true ->
   let owner := clean_owner (fstr_opt user) in
   let rq := Request (listing_url "users" owner) h in
   respond w (requests st) rq = Ok (VList items) ->
   resolve_repos w h repos org user st
   = (Ok (Some (VDict [("Owners", VList [VDict [(owner, VList names)]])])),
      State (requests st ++ [rq]) (calls st) (fs st) (console st))).
Proof.
  intros Hr Hnames. split.
  - intros Ho owner rq Hresp. now apply (resolve_repos_org_listing w h repos org user items).
  - intros Ho Hu owner rq Hresp.
    now apply (resolve_repos_user_listing w h repos org user items).
Qed.

(** [--org acme/] and [--user acme/] in the sample world. *)
Lemma listing_resolves_acme :
  resolve_repos acme_world [] None (Some "acme/") None init_state
  = (Ok (Some (VDict [("Owners", VList [VDict [("acme", VList [VStr "widgets"])]])])),
     State [Request "https://api.github.com/orgs/acme/repos" []] [] ∅ [])
  /\ resolve_repos acme_world [] None None (Some "acme/") init_state
  = (Ok (Some (VDict [("Owners", VList [VDict [("acme", VList [VStr "widgets"])]])])),
     State [Request "https://api.github.com/users/acme/repos" []] [] ∅ []).
Proof.
  assert (Hnames : Forall2 (fun item name => py_getitem item (VStr "name") = Ok name)
                     [VDict [("name", VStr "widgets")]] [VStr "widgets"]).
  { repeat constructor. }
  split.
  - apply (listing_resolves_in_order acme_world [] None (Some "acme/") None
             [VDict [("name", VStr "widgets")]] [VStr "widgets"] init_state
             eq_refl Hnames); reflexivity.
  - apply (listing_resolves_in_order acme_world [] None None (Some "acme/")
             [VDict [("name", VStr "widgets")]] [VStr "widgets"] init_state
             eq_refl Hnames); reflexivity.
Defined.

(** X8: when the listing is answered with a non-empty object instead of a
    list (the body of an error response), the comprehension of line 69
    iterates its keys and subscripts a [str] with ["name"]: the run ends
    with [TypeError] after that one request, and nothing is written. *)
Theorem listing_error_body_is_type_error (w : World)
    (repos org user output_file auth_token : option string)
    (k : string) (v : pyval) (d : list (string * pyval)) (st : state) :
  truthy repos = false -> truthy org = true ->
  let h := resolve_headers w auth_token in
  let rq := Request (listing_url "orgs" (clean_owner (fstr_opt org))) h in
  respond w (requests st) rq = Ok (VDict ((k, v) :: d)) ->
  main w repos org user output_file auth_token st
  = (Raise TypeError, State (requests st ++ [rq]) (calls st) (fs st) (console st)).
Proof.
  intros Hr Ho h rq Hresp. unfold main, resolve_repos. fold h. rewrite Hr, Ho.
  unfold bind at 1. unfold bind at 1. unfold http_get_json.
  change (Request ("https://api.github.com/orgs/" +:+ clean_owner (fstr_opt org)
                   +:+ "/repos") h) with rq.
  rewrite Hresp. reflexivity.
Qed.

Lemma listing_error_body_example :
  main not_found_world None (Some "acme") None (Some "out.json") (Some "abc") init_state
  = (Raise TypeError,
     State [Request "https://api.github.com/orgs/acme/repos"
                    [("Authorization", "token abc")]] [] ∅ []).
Proof.
  apply (listing_error_body_is_type_error not_found_world None (Some "acme") None
           (Some "out.json") (Some "abc") "message" (VStr "Not Found") [] init_state);
    reflexivity.
Defined.

(** ** One fetch *)

(** What a fetch that returns has done, and what it returns. *)
Lemma get_repo_data_ok w h owner repo record st st' :
  get_repo_data w h owner repo st = (Ok record, st') ->
  is_record record
  /\ py_getitem record (VStr "Repo")
     = Ok (VStr (py_str w owner +:+ "/" +:+ py_str w repo))
  /\ st' = State (requests st ++ fetch_requests w h owner repo)
                 (calls st ++ [(owner, repo)]) (fs st) (console st).
Proof.
  unfold get_repo_data, bind, log_call, http_get_json, lift, ret. simpl.
  repeat match goal with
  | |- context [match ?x with Ok _ => _ | Raise _ => _ end] =>
      destruct x; simpl; try discriminate
  end.
  intros [= <- <-]. split; [|split].
  - eexists. split; reflexivity.
  - reflexivity.
  - unfold fetch_requests. now rewrite <- !app_assoc.
Qed.

(** X10: a fetch that returns has issued exactly its three requests, in
    the order detail, views, clones, has touched neither the files nor the
    console, and returns a record: a dict with the eight keys in the order
    of the columns, whose [Repo] is ["<owner>/<repo>"]. *)
Theorem fetch_returns_a_record (w : World) (h : list (string * string))
    (owner repo record : pyval) (st st' : state) :
  get_repo_data w h owner repo st = (Ok record, st') ->
  is_record record
  /\ py_getitem record (VStr "Repo")
     = Ok (VStr (py_str w owner +:+ "/" +:+ py_str w repo))
  /\ st' = State (requests st ++ fetch_requests w h owner repo)
                 (calls st ++ [(owner, repo)]) (fs st) (console st).
Proof. apply get_repo_data_ok. Qed.

(** The fetch of [acme/widgets] in the sample world. *)
Lemma fetch_returns_a_record_acme :
  is_record (record_value acme_record)
  /\ py_getitem (record_value acme_record) (VStr "Repo") = Ok (VStr "acme/widgets")
  /\ snd (get_repo_data acme_world [] (VStr "acme") (VStr "widgets") init_state)
     = State [Request "https://api.github.com/repos/acme/widgets" [];
              Request "https://api.github.com/repos/acme/widgets/traffic/views" [];
              Request "https://api.github.com/repos/acme/widgets/traffic/clones" []]
             [(VStr "acme", VStr "widgets")] ∅ [].
Proof.
  exact (fetch_returns_a_record acme_world [] (VStr "acme") (VStr "widgets")
           (record_value acme_record) init_state
           (snd (get_repo_data acme_world [] (VStr "acme") (VStr "widgets") init_state))
           eq_refl).
Defined.

(** X9: when the three requests are answered and the detail is an object
    without [forks_count] (the body of an error response, say), the fetch
    raises [KeyError('forks_count')]; the views and clones requests have
    been issued all the same, since every field is read after the last
    request. *)
Theorem fetch_missing_key (w : World) (h : list (string * string))
    (owner repo views clones : pyval) (detail : list (string * pyval)) (st : state) :
  let base := "https://api.github.com/repos/" +:+ py_str w owner +:+ "/" +:+ py_str w repo in
  let rq_detail := Request base h in
  let rq_views := Request (base +:+ "/traffic/views") h in
  let rq_clones := Request (base +:+ "/traffic/clones") h in
  respond w (requests st) rq_detail = Ok (VDict detail) ->
  respond w (requests st ++ [rq_detail]) rq_views = Ok views ->
  respond w (requests st ++ [rq_detail; rq_views]) rq_clones = Ok clones ->
  assoc "forks_count" detail = None ->
  get_repo_data w h owner repo st
  = (Raise (KeyError (VStr "forks_count")),
     State (requests st ++ fetch_requests w h owner repo)
           (calls st ++ [(owner, repo)]) (fs st) (console st)).
Proof.
  intros base rq_detail rq_views rq_clones Hd Hv Hc Hf.
  unfold get_repo_data, bind, log_call, http_get_json, lift, ret; simpl.
  fold base. fold rq_detail. rewrite Hd.
  fold rq_views. rewrite Hv.
  rewrite <- app_assoc. simpl. fold rq_clones. rewrite Hc.
  simpl. rewrite Hf. unfold fetch_requests. fold base.
  now rewrite <- app_assoc.
Qed.

(** A repository the service does not know. *)
Lemma fetch_missing_key_example :
  fst (get_repo_data not_found_world [] (VStr "acme") (VStr "nothing") init_state)
  = Raise (KeyError (VStr "forks_count"))
  /\ List.length (requests (snd (get_repo_data not_found_world [] (VStr "acme")
                                  (VStr "nothing") init_state))) = 3.
Proof.
  rewrite (fetch_missing_key not_found_world [] (VStr "acme") (VStr "nothing")
             not_found not_found [("message", VStr "Not Found")] init_state
             eq_refl eq_refl eq_refl eq_refl).
  split; reflexivity.
Defined.

(** ** What the run leaves alone *)

(** X13: with an output path of suffix [.json] the run may create or
    change the file at the path it was given (as [pathlib] spells it) and no
    other file. *)
Theorem json_output_touches_only_destination (w : World)
    (repos org user auth_token : option string) (path : string) (st : state) :
  Path_suffix path = ".json" ->
  fs_outside (Path_str path) st
    (snd (main w repos org user (Some path) auth_token st)).
Proof.
  intros Hjson. rewrite main_split. revert st.
  change (steps (fs_outside (Path_str path))
            (bind (gather w repos org user auth_token) (output_sink w (Some path)))).
  apply steps_bind.
  - eapply steps_weaken; [apply fs_outside_of_same_fs | apply gather_same_fs].
  - intros data. rewrite output_sink_json by assumption.
    unfold write_json, console_line. frame.
Qed.

(** [-f ./reports//stats.json] in the sample world, with a [data.csv]
    already there: it is left as it was. *)
Lemma json_output_keeps_data_csv :
  let st := State [] [] {[ "data.csv" := "old" ]} [] in
  fs (snd (main acme_world None (Some "acme") None (Some "./reports//stats.json")
             None st)) !! "data.csv" = Some "old".
Proof.
  intros st.
  rewrite (json_output_touches_only_destination acme_world None (Some "acme") None
             None "./reports//stats.json" st eq_refl "data.csv"); [|discriminate].
  apply lookup_singleton_eq.
Defined.

#[local] Instance sends_to_github_preorder h : PreOrder (sends_to_github h).
Proof.
  split.
  - intros s. exists []. split; [now rewrite app_nil_r | constructor].
  - intros s1 s2 s3 (n1 & E1 & F1) (n2 & E2 & F2). exists (n1 ++ n2). split.
    + rewrite E2, E1. now rewrite <- app_assoc.
    + apply Forall_app; split; assumption.
Qed.

Lemma sends_to_github_of_same_requests h s s' :
  same_requests s s' -> sends_to_github h s s'.
Proof.
  intros E. exists []. split; [rewrite app_nil_r; exact E | constructor].
Qed.

Lemma http_get_json_to_github w url h :
  String.prefix github_api url = true ->
  steps (sends_to_github h) (http_get_json w url h).
Proof.
  intros Hp st. exists [Request url h]. split; [reflexivity|].
  constructor; [split; [exact Hp | reflexivity] | constructor].
Qed.

Lemma log_call_to_github h o r : steps (sends_to_github h) (log_call o r).
Proof.
  eapply steps_weaken; [apply sends_to_github_of_same_requests
                       | apply log_call_same_requests].
Qed.

#[local] Hint Resolve http_get_json_to_github log_call_to_github : frames.
#[local] Hint Extern 0 (String.prefix github_api _ = true) => reflexivity : frames.

Lemma gather_to_github w repos org user auth_token :
  steps (sends_to_github (resolve_headers w auth_token))
        (gather w repos org user auth_token).
Proof.
  unfold gather, resolve_repos, parse_repos_list_from_yaml, fetch_loop,
    fetch_entry, get_repo_data.
  destruct (truthy repos); [|destruct (truthy org); [|destruct (truthy user)]];
    (apply steps_bind; [frame | intros [rd|]; frame]).
Qed.

(** X15: every request of a run goes to [https://api.github.com/] and
    carries the Authorization header resolved at the start; the run
    contacts no other host and sends no request without the header. *)
Theorem requests_go_to_github_with_token (w : World)
    (repos org user output_file auth_token : option string) (st : state) :
  exists new,
    requests (snd (main w repos org user output_file auth_token st))
    = requests st ++ new
    /\ Forall (fun rq => String.prefix "https://api.github.com/" (req_url rq) = true
                         /\ req_headers rq = resolve_headers w auth_token) new.
Proof.
  rewrite main_split. revert st.
  change (steps (sends_to_github (resolve_headers w auth_token))
            (bind (gather w repos org user auth_token) (output_sink w output_file))).
  apply steps_bind; [apply gather_to_github | intros data].
  eapply steps_weaken;
    [apply sends_to_github_of_same_requests | apply output_sink_same_requests].
Qed.

(** ** Owners that need no cleaning *)

Lemma lstrip_unchanged p s : first_char_is p s = false -> lstrip p s = s.
Proof. destruct s as [|c s]; simpl; [reflexivity|]. now intros ->. Qed.

Lemma rstrip_unchanged p s : last_char_is p s = false -> rstrip p s = s.
Proof.
  induction s as [|c s IH]; [reflexivity|].
  destruct s as [|c' s].
  - simpl. now intros ->.
  - intros H. change (last_char_is p (String c' s) = false) in H.
    cbn [rstrip]. cbn [rstrip] in IH. rewrite (IH H). reflexivity.
Qed.

Lemma first_char_is_weaken (p q : ascii -> bool) s :
  (forall c, q c = true -> p c = true) ->
  first_char_is p s = false -> first_char_is q s = false.
Proof.
  intros Hqp. destruct s as [|c s]; simpl; [reflexivity|]. intros Hp.
  destruct (q c) eqn:Hq; [|reflexivity]. now rewrite (Hqp c Hq) in Hp.
Qed.

Lemma last_char_is_weaken (p q : ascii -> bool) s :
  (forall c, q c = true -> p c = true) ->
  last_char_is p s = false -> last_char_is q s = false.
Proof.
  intros Hqp. induction s as [|c s IH]; [reflexivity|].
  destruct s as [|c' s].
  - simpl. intros Hp. destruct (q c) eqn:Hq; [|reflexivity].
    now rewrite (Hqp c Hq) in Hp.
  - exact IH.
Qed.

(** X16: a name that neither begins nor ends with whitespace or a slash
    is the owner of the listing request as it stands; inner slashes and
    blanks are kept. *)
Theorem plain_owner_is_unchanged (name : string) :
  first_char_is (fun c => is_whitespace c || is_slash c) name = false ->
  last_char_is (fun c => is_whitespace c || is_slash c) name = false ->
  clean_owner name = name.
Proof.
  intros Hf Hl. unfold clean_owner, strip.
  assert (Hws : forall c, is_whitespace c = true -> is_whitespace c || is_slash c = true)
    by (intros c ->; reflexivity).
  assert (Hsl : forall c, is_slash c = true -> is_whitespace c || is_slash c = true)
    by (intros c ->; apply orb_true_r).
  rewrite (lstrip_unchanged is_whitespace name)
    by (eapply first_char_is_weaken; [exact Hws | exact Hf]).
  rewrite (rstrip_unchanged is_whitespace name)
    by (eapply last_char_is_weaken; [exact Hws | exact Hl]).
  rewrite (lstrip_unchanged is_slash name)
    by (eapply first_char_is_weaken; [exact Hsl | exact Hf]).
  apply rstrip_unchanged. eapply last_char_is_weaken; [exact Hsl | exact Hl].
Qed.

Lemma plain_owner_example : clean_owner "The-Migus-Group" = "The-Migus-Group".
Proof. apply plain_owner_is_unchanged; reflexivity. Defined.

(** ** From the fetcher to the sinks *)

Lemma record_dict_shape (d : list (string * pyval)) :
  map fst d = fieldnames ->
  exists v1 v2 v3 v4 v5 v6 v7 v8,
    d = [("Repo", v1); ("Forks", v2); ("Stars", v3); ("Watchers", v4);
         ("Clones Total", v5); ("Clones Unique", v6);
         ("Views Total", v7); ("Views Unique", v8)].
Proof.
  unfold fieldnames. intros H.
  repeat (destruct d as [|[? ?] d]; [discriminate H|];
          cbn [map fst] in H; injection H as E H; subst).
  destruct d; [|discriminate H]. eauto 10.
Qed.




(** A record has what the rows of the CSV file read. *)
Lemma appends_row_of_record w path v :
  is_record v ->
  appends path (csv_line w (record_cells v))
    (rowdict <- csv_rowdict v ;; writerow w path rowdict).
Proof.
  intros (d & -> & Hk) st t Ht.
  apply record_dict_shape in Hk as (v1 & v2 & v3 & v4 & v5 & v6 & v7 & v8 & ->).
  apply (appends_file_write path _ st t Ht).
Qed.

Lemma appends_rows_of_records w path data :
  Forall is_record data ->
  appends path (concat_text (map (fun v => csv_line w (record_cells v)) data))
    (for_each (fun v => rowdict <- csv_rowdict v ;; writerow w path rowdict) data).
Proof.
  induction 1 as [|v data Hv _ IH]; simpl.
  - apply appends_ret.
  - apply appends_bind; [now apply appends_row_of_record | exact IH].
Qed.

Lemma get_repo_data_returns_record w h o r :
  returns is_record (get_repo_data w h o r).
Proof. intros st v st' E. now apply (get_repo_data_ok w h o r v st st'). Qed.

Lemma concat_Forall {A} (P : A -> Prop) (chunks : list (list A)) :
  Forall (Forall P) chunks -> Forall P (concat chunks).
Proof.
  induction 1 as [|c chunks Hc _ IH]; simpl; [constructor|].
  apply Forall_app. now split.
Qed.

Lemma fetch_loop_returns_records w h rd :
  returns (Forall is_record) (fetch_loop w h rd).
Proof.
  unfold fetch_loop. destruct rd as [rd|]; [|intros ? ? ? [=]].
  eapply returns_bind; [intros ? ? ? _; exact I | intros owners_v _].
  eapply returns_bind; [intros ? ? ? _; exact I | intros owners _].
  eapply returns_bind.
  - apply (returns_for_append (Forall is_record)).
    intros entry. unfold fetch_entry.
    eapply returns_bind; [intros ? ? ? _; exact I | intros key _].
    eapply returns_bind; [intros ? ? ? _; exact I | intros repo_list _].
    eapply returns_bind; [intros ? ? ? _; exact I | intros repos _].
    apply returns_for_append. intros repo. apply get_repo_data_returns_record.
  - intros chunks Hchunks. apply returns_ret. now apply concat_Forall.
Qed.

(** What the first two stages hand to the sink is a list of records. *)
Lemma gather_returns_records w repos org user auth_token :
  returns (Forall is_record) (gather w repos org user auth_token).
Proof.
  unfold gather.
  eapply returns_bind; [intros ? ? ? _; exact I | intros rd _].
  apply fetch_loop_returns_records.
Qed.



(** X12: with an output path of suffix [.csv] the records that were
    gathered are written, whatever their values are: the run returns, and
    [data.csv] holds the header line followed by one line per record, its
    eight cells in the order of the columns; no lookup of the sink can fail
    on them. *)
Theorem csv_output_of_gathered_records (w : World)
    (repos org user auth_token : option string) (path : string)
    (data : list pyval) (st st1 : state) :
  Path_suffix path = ".csv" ->
  writable w "data.csv" = true ->
  gather w repos org user auth_token st = (Ok data, st1) ->
  let rows := map (fun v => csv_line w (record_cells v)) data in
  exists st2,
    main w repos org user (Some path) auth_token st = (Ok tt, st2)
    /\ fs st2 !! "data.csv" = Some (csv_header +:+ CRLF +:+ concat_text rows)
    /\ List.length rows = List.length data.
Proof.
  intros Hcsv Hw Hg rows.
  pose proof (gather_returns_records w repos org user auth_token st data st1 Hg) as Hrec.
  assert (Hbody : appends "data.csv" ((csv_header +:+ CRLF) +:+ concat_text rows +:+ "")
            (writeheader w "data.csv" ;;;
             for_each (fun v => rowdict <- csv_rowdict v ;;
                                writerow w "data.csv" rowdict) data ;;;
             console_line "CSV file created.")).
  { apply appends_bind; [apply appends_writeheader|].
    apply appends_bind; [now apply appends_rows_of_records | apply appends_console_print]. }
  destruct (Hbody (State (requests st1) (calls st1) (<["data.csv" := ""]> (fs st1))
                     (console st1 ++ [OutLine "Creating CSV"])) "")
    as (st2 & E & Ht); [apply lookup_insert_eq|].
  exists st2. split; [|split].
  - rewrite main_split. unfold bind at 1. rewrite Hg.
    unfold output_sink. destruct path as [|c p]; [discriminate Hcsv|].
    cbn [truthy fstr_opt]. rewrite Hcsv. cbn [String.eqb Ascii.eqb Bool.eqb].
    rewrite <- E. unfold write_csv, console_line.
    unfold bind at 1. cbn [console_print].
    unfold bind at 1. unfold open_w. cbn [requests calls fs console].
    now rewrite Hw.
  - rewrite Ht. now rewrite append_nil_l, append_nil_r, append_assoc.
  - unfold rows. apply length_map.
Qed.

(** [--org acme -f out.csv] in the sample world. *)
Lemma csv_output_of_gathered_records_acme :
  exists st2,
    main acme_world None (Some "acme") None (Some "out.csv") None init_state
    = (Ok tt, st2)
    /\ fs st2 !! "data.csv"
       = Some (csv_header +:+ CRLF
               +:+ concat_text [csv_line acme_world (record_cells (record_value acme_record))])
    /\ List.length [csv_line acme_world (record_cells (record_value acme_record))] = 1.
Proof.
  apply (csv_output_of_gathered_records acme_world None (Some "acme") None None
           "out.csv" (fst gather_records_acme) init_state (snd gather_records_acme));
    reflexivity.
Defined.

(** ** How far a loop gets *)

(** The requests of one fetch, whether it returns or not. *)
Lemma get_repo_data_requests_progress w h o r st :
  exists done rest,
    fetch_requests w h o r = done ++ rest
    /\ requests (snd (get_repo_data w h o r st)) = requests st ++ done
    /\ (is_ok (fst (get_repo_data w h o r st)) = true -> rest = []).
Proof.
  unfold fetch_requests, get_repo_data, bind, log_call, http_get_json, lift, ret.
  simpl.
  destruct (respond w _ _); simpl;
    [|eexists [_], [_; _]; repeat split; discriminate].
  destruct (respond w _ _); simpl;
    [|eexists [_; _], [_]; repeat split; [now rewrite <- app_assoc | discriminate]].
  eexists [_; _; _], [].
  repeat match goal with
  | |- context [match ?x with Ok _ => _ | Raise _ => _ end] => destruct x; simpl
  end; repeat split; now rewrite <- !app_assoc.
Qed.

(** The fetch loop on a RepoSource, spelled as two nested loops over its
    entries and their repository names. *)
Lemma fetch_loop_source w h (src : RepoSource) st :
  fetch_loop w h (Some (source_value src)) st
  = bind (for_append
            (fun e => for_append
                        (fun r => get_repo_data w h (VStr (fst e)) (VStr r)) (snd e))
            src)
         (fun chunks => ret (concat chunks)) st.
Proof.
  unfold fetch_loop, source_value.
  rewrite lift_ok with (a := VList (map (fun e => VDict [(fst e, VList (map VStr (snd e)))]) src))
    by reflexivity.
  rewrite lift_ok with (a := map (fun e => VDict [(fst e, VList (map VStr (snd e)))]) src)
    by reflexivity.
  unfold bind. rewrite for_append_map.
  rewrite (for_append_ext _
             (fun e => for_append
                         (fun r => get_repo_data w h (VStr (fst e)) (VStr r)) (snd e))).
  - reflexivity.
  - intros [o rs] st0. cbn [fst snd]. unfold fetch_entry.
    rewrite lift_ok with (a := VStr o) by reflexivity.
    rewrite lift_ok with (a := VList (map VStr rs))
      by (simpl; now rewrite String.eqb_refl).
    rewrite lift_ok with (a := map VStr rs) by reflexivity.
    apply for_append_map.
Qed.

Lemma concat_map_pairs {X} (f : string * string -> list X) (src : RepoSource) :
  concat (map (fun e => concat (map (fun r => f (fst e, r)) (snd e))) src)
  = concat (map f (source_pairs src)).
Proof.
  unfold source_pairs. induction src as [|[o rs] src IH]; simpl; [reflexivity|].
  rewrite map_app, concat_app, IH. f_equal.
  now rewrite map_map.
Qed.

(** How far the fetch loop gets on a RepoSource, for any log [proj] of
    which each fetch extends a prefix of [ev]. *)
Lemma fetch_loop_progress {X} (proj : state -> list X)
    (ev : string * string -> list X) w h (src : RepoSource) :
  (forall p st, exists done rest,
      ev p = done ++ rest
      /\ proj (snd (get_repo_data w h (VStr (fst p)) (VStr (snd p)) st)) = proj st ++ done
      /\ (is_ok (fst (get_repo_data w h (VStr (fst p)) (VStr (snd p)) st)) = true
          -> rest = [])) ->
  forall st, exists done rest,
    concat (map ev (source_pairs src)) = done ++ rest
    /\ proj (snd (fetch_loop w h (Some (source_value src)) st)) = proj st ++ done
    /\ (is_ok (fst (fetch_loop w h (Some (source_value src)) st)) = true -> rest = []).
Proof.
  intros Hfetch st. rewrite fetch_loop_source.
  destruct (for_append_progress proj
              (fun e => for_append
                          (fun r => get_repo_data w h (VStr (fst e)) (VStr r)) (snd e))
              (fun e => concat (map (fun r => ev (fst e, r)) (snd e))) src) with (st := st)
    as (done & rest & E & P & O).
  - intros e st0.
    apply (for_append_progress proj
             (fun r => get_repo_data w h (VStr (fst e)) (VStr r))
             (fun r => ev (fst e, r)) (snd e)).
    intros r st1. apply (Hfetch (fst e, r) st1).
  - exists done, rest. rewrite <- concat_map_pairs. split; [exact E|].
    unfold bind, ret.
    destruct (for_append _ src st) as [[chunks|e] st']; simpl in *; split; assumption.
Qed.

(** The fetch loop on a RepoSource is the fetcher run on its pairs. *)
Lemma fetch_loop_source_pairs w h (src : RepoSource) st :
  fetch_loop w h (Some (source_value src)) st
  = for_append (fun p => get_repo_data w h (fst p) (snd p))
      (map pair_value (source_pairs src)) st.
Proof.
  rewrite fetch_loop_source. unfold source_pairs.
  assert (E : map pair_value (flat_map (fun e => map (fun r => (fst e, r)) (snd e)) src)
              = flat_map (fun e => map (fun r => (VStr (fst e), VStr r)) (snd e)) src).
  { clear. induction src as [|e src IH]; simpl; [reflexivity|].
    rewrite map_app, IH, map_map. reflexivity. }
  rewrite E, <- for_append_flat_map. unfold bind.
  rewrite (for_append_ext
             (fun e => for_append (fun p => get_repo_data w h (fst p) (snd p))
                         (map (fun r => (VStr (fst e), VStr r)) (snd e)))
             (fun e => for_append
                         (fun r => get_repo_data w h (VStr (fst e)) (VStr r)) (snd e))).
  - reflexivity.
  - intros e st0. now rewrite for_append_map.
Qed.

(** X17: the loop has no recovery. When the fetches of the pairs before
    [p] return and the fetch of [p] raises, the loop ends with that
    exception in the state that fetch left: the records gathered so far are
    dropped, the last invocation of the fetcher is the one for [p], and no
    pair after [p] is fetched. *)
Theorem fetches_stop_at_first_failure (w : World) (h : list (string * string))
    (src : RepoSource) (st : state)
    (before after : list (pyval * pyval)) (p : pyval * pyval)
    (records : list pyval) (st_p st_e : state) (e : exn) :
  map pair_value (source_pairs src) = before ++ p :: after ->
  fetched w h before st records st_p ->
  get_repo_data w h (fst p) (snd p) st_p = (Raise e, st_e) ->
  fetch_loop w h (Some (source_value src)) st = (Raise e, st_e)
  /\ calls st_e = calls st ++ before ++ [p].
Proof.
  intros Hsplit Hbefore Hfail. split.
  - rewrite fetch_loop_source_pairs, Hsplit, for_append_app.
    unfold bind at 1. rewrite (fetched_run w h before st records st_p Hbefore).
    unfold bind at 1. cbn [for_append]. unfold bind at 1. now rewrite Hfail.
  - pose proof (get_repo_data_calls w h (fst p) (snd p) st_p) as Hc.
    rewrite Hfail in Hc. cbn [snd] in Hc.
    rewrite Hc, (fetched_calls w h before st records st_p Hbefore).
    destruct p. now rewrite <- app_assoc.
Qed.

(** Three repositories of [acme], the second of which is answered with a
    404: the run ends with the [KeyError] of [gadgets], and [gizmos] is
    never fetched. *)
Lemma fetches_stop_at_gadgets :
  exists st_e,
    fetch_loop gadgets_missing_world [] (Some (source_value three_repo_source)) init_state
    = (Raise (KeyError (VStr "forks_count")), st_e)
    /\ calls st_e = calls init_state
                    ++ [(VStr "acme", VStr "widgets")] ++ [(VStr "acme", VStr "gadgets")].
Proof.
  exists (snd (fetch_loop gadgets_missing_world [] (Some (source_value three_repo_source))
                 init_state)).
  apply (fetches_stop_at_first_failure gadgets_missing_world [] three_repo_source init_state
           [(VStr "acme", VStr "widgets")] [(VStr "acme", VStr "gizmos")]
           (VStr "acme", VStr "gadgets") [record_value acme_record]
           (snd (get_repo_data gadgets_missing_world [] (VStr "acme") (VStr "widgets")
                   init_state))).
  - reflexivity.
  - apply fetched_cons
      with (st1 := snd (get_repo_data gadgets_missing_world [] (VStr "acme")
                          (VStr "widgets") init_state));
      [reflexivity | apply fetched_nil].
  - reflexivity.
Defined.

(** X14: on a RepoSource of N pairs the loop issues the requests detail,
    views, clones of each pair, pair after pair, up to the request that
    raises: never more than these, and exactly these 3N when it returns. *)
Theorem requests_of_the_fetch_loop (w : World) (h : list (string * string))
    (src : RepoSource) (st : state) :
  let run := fetch_loop w h (Some (source_value src)) st in
  let planned :=
    concat (map (fun p => fetch_requests w h (VStr (fst p)) (VStr (snd p)))
                (source_pairs src)) in
  List.length planned = 3 * List.length (source_pairs src)
  /\ exists sent unsent,
       planned = sent ++ unsent
       /\ requests (snd run) = requests st ++ sent
       /\ (is_ok (fst run) = true -> unsent = []).
Proof.
  intros run planned. split.
  - unfold planned. induction (source_pairs src) as [|p l IH]; simpl; [reflexivity|].
    rewrite IH. lia.
  - apply (fetch_loop_progress requests
             (fun p => fetch_requests w h (VStr (fst p)) (VStr (snd p))) w h src).
    intros p st0. apply get_repo_data_requests_progress.
Qed.

(** ** From the listing to the fetches *)



(** ** The sample world, end to end *)

Lemma acme_world_well_formed : well_formed_world acme_world.
Proof.
  intros history rq v. cbn [respond acme_world]. unfold acme_respond.
  repeat match goal with
  | |- context [if ?b then _ else _] => destruct b
  end; intros [= <-]; reflexivity.
Qed.

(** [--org acme -f stats.json] in the sample world. *)
Lemma main_json_round_trip_acme :
  exists text st2,
    main acme_world None (Some "acme") None (Some "stats.json") None init_state
    = (Ok tt, st2)
    /\ fs st2 !! Path_str "stats.json" = Some text
    /\ json_loads text = Some (VDict [("Data", VList (fst gather_records_acme))]).
Proof.
  apply (main_json_round_trip acme_world None (Some "acme") None None "stats.json"
           init_state (snd gather_records_acme) (fst gather_records_acme)
           acme_world_well_formed); reflexivity.
Defined.

(** ** A destination that cannot be opened *)

(** X19: the destination is opened after the records have been gathered.
    When [open] fails, the run ends with its [OSError]; the requests have
    been issued, the progress message has been printed, and no file has
    changed. The CSV branch fails on [data.csv], the JSON branch on the
    path it was given. *)
Theorem unwritable_destination_fails_late (w : World)
    (repos org user auth_token : option string) (path : string)
    (data : list pyval) (st st1 : state) :
  gather w repos org user auth_token st = (Ok data, st1) ->
  (Path_suffix path = ".csv" -> writable w "data.csv" = false ->
   main w repos org user (Some path) auth_token st
   = (Raise (OSError "data.csv"),
      State (requests st1) (calls st1) (fs st)
            (console st ++ [OutLine "Creating CSV"])))
  /\ (Path_suffix path = ".json" -> writable w (Path_str path) = false ->
   main w repos org user (Some path) auth_token st
   = (Raise (OSError (Path_str path)),
      State (requests st1) (calls st1) (fs st)
            (console st ++ [OutLine "Creating JSON"]))).
Proof.
  intros Hg.
  pose proof (gather_same_fs w repos org user auth_token st) as Hfs.
  pose proof (gather_same_console w repos org user auth_token st) as Hco.
  rewrite Hg in Hfs, Hco. unfold same_fs, same_console in *. simpl in Hfs, Hco.
  split.
  - intros Hcsv Hw. rewrite main_split. unfold bind at 1. rewrite Hg.
    unfold output_sink. destruct path as [|c p]; [discriminate Hcsv|].
    cbn [truthy fstr_opt]. rewrite Hcsv. cbn [String.eqb Ascii.eqb Bool.eqb].
    unfold write_csv, console_line. unfold bind at 1. cbn [console_print].
    unfold bind at 1. unfold open_w. cbn [requests calls fs console].
    now rewrite Hw, Hfs, Hco.
  - intros Hjson Hw. rewrite main_split. unfold bind at 1. rewrite Hg.
    rewrite output_sink_json by assumption.
    unfold write_json, console_line. unfold bind at 1. cbn [console_print].
    unfold bind at 1. unfold open_w. cbn [requests calls fs console].
    now rewrite Hw, Hfs, Hco.
Qed.

(** [--org acme -f out.csv] and [-f out.json] on a read-only file system. *)
Lemma unwritable_destination_example :
  fst (main read_only_world None (Some "acme") None (Some "out.csv") None init_state)
  = Raise (OSError "data.csv")
  /\ fst (main read_only_world None (Some "acme") None (Some "out.json") None init_state)
     = Raise (OSError "out.json").
Proof.
  split.
  - rewrite (proj1 (unwritable_destination_fails_late read_only_world None (Some "acme")
                      None None "out.csv" (fst gather_records_acme) init_state
                      (snd gather_records_acme) eq_refl) eq_refl eq_refl).
    reflexivity.
  - rewrite (proj2 (unwritable_destination_fails_late read_only_world None (Some "acme")
                      None None "out.json" (fst gather_records_acme) init_state
                      (snd gather_records_acme) eq_refl) eq_refl eq_refl).
    reflexivity.
Defined.
